(** * Fitness studio booking API: a shallow embedding of the booking core

    The development follows the Python sources:
    - [utils.py]    : the IST clock helpers ([convert_to_ist], [is_future_class]);
    - [models.py]   : the request validators ([validate_client_email]);
    - [database.py] : the SQLite store ([Database.create_booking], ...);
    - [services.py] : the service layer ([BookingService]);
    - [main.py]     : the handlers ([book_class], ...).

    Table [classes] is a finite map from the primary key [id] to the other
    columns; table [bookings] is the list of its rows in rowid order.  A
    [SELECT ... WHERE] is a [filter], [fetchone] is [head].  The clock is an
    explicit argument [now]: the system time, in microseconds since the epoch
    (UTC), read when the operation is called.  Storage faults are explicit
    too: whether the connection and the cursor of [create_booking] open, and
    which of its statements fail. *)

From Stdlib Require Import ZArith List String Ascii Lia.
From Stdlib Require Import Floats.SpecFloat.
From stdpp Require Import base decidable option list sorting strings pretty gmap.

Local Open Scope Z_scope.

(** ** Time stamps

    A [datetime] is what [datetime.fromisoformat] builds from the TEXT stored
    in a [date_time] column: the wall-clock reading (in microseconds) and the
    UTC offset of the text (in minutes), absent for a naive time stamp.  The
    stored texts are the ones [datetime.isoformat] writes. *)

Record datetime := mk_datetime {
  wall : Z;
  tzinfo : option Z
}.

Global Instance datetime_eq_dec : EqDecision datetime.
Proof. solve_decision. Defined.

Definition usec_per_sec : Z := 1000000.
Definition usec_per_min : Z := 60000000.

(** [IST = pytz.timezone('Asia/Kolkata')]: UTC+05:30, the offset of the
    zone since 15 October 1945.  Before that the zone had other offsets
    (+06:30 in 1942-45, local mean times before 1906), which are not
    modelled: what is stated of the offset itself is stated of time stamps
    that satisfy [ist_era]. *)
Definition IST : Z := 330.

(** The instant a time stamp denotes, in microseconds UTC; a naive one is
    read as it stands. *)
Definition instant (dt : datetime) : Z :=
  wall dt - default 0 (tzinfo dt) * usec_per_min.



(** [get_current_ist_time]: [datetime.now(IST)]. *)
Definition get_current_ist_time (now : Z) : datetime :=
  {| wall := now + IST * usec_per_min; tzinfo := Some IST |}.

(** [convert_to_ist]: a naive time stamp is taken to be in IST
    ([IST.localize]), an aware one is moved to IST ([astimezone]). *)
Definition convert_to_ist (dt : datetime) : datetime :=
  match tzinfo dt with
  | None => {| wall := wall dt; tzinfo := Some IST |}
  | Some off =>
      {| wall := wall dt - off * usec_per_min + IST * usec_per_min;
         tzinfo := Some IST |}
  end.

(** Python's [a > b] on two aware time stamps compares their instants. *)
Definition dt_gt (a b : datetime) : bool := bool_decide (instant b < instant a).

(** Python's [a == b]: wall clocks when both are naive, instants when both
    are aware, [False] when only one is. *)
Definition dt_eq (a b : datetime) : bool :=
  match tzinfo a, tzinfo b with
  | None, None => bool_decide (wall a = wall b)
  | Some _, Some _ => bool_decide (instant a = instant b)
  | _, _ => false
  end.

(** [is_future_class]. *)
Definition is_future_class (now : Z) (class_datetime : datetime) : bool :=
  dt_gt (convert_to_ist class_datetime) (get_current_ist_time now).

(** The start time of a class as the service reads it. *)
Definition start_time (dt : datetime) : Z := instant (convert_to_ist dt).

(** SQLite's [datetime(X)] renders X as 'YYYY-MM-DD HH:MM:SS' in UTC, a text
    without offset being read as UTC.  For a text without offset, or with
    the offset '+00:00', the rendering is the text cut after its seconds.
    For a text with another offset SQLite moves the time value, which it
    keeps in whole milliseconds, the text being rounded to the nearest one,
    and the rendering shows the whole seconds of that value.  Two such
    renderings compare as texts the way their second counts compare.
    (SQLite reads offsets of less than 15 hours, which covers every time
    zone.) *)
Definition sql_datetime (dt : datetime) : Z :=
  match tzinfo dt with
  | None | Some 0 => wall dt / usec_per_sec
  | Some _ => (instant dt + 500) / 1000 / 1000
  end.

(** [datetime('now')]: the whole seconds of the system time. *)
Definition sql_datetime_now (now : Z) : Z := now / usec_per_sec.

(** [ORDER BY date_time] orders the rows by the stored TEXT.  On the texts
    [isoformat] writes, that is the wall clock first; texts with equal wall
    clocks are ordered by their offset suffix: none, then '+HH:MM' upwards,
    then '-HH:MM' upwards. *)
Definition suffix_key (tz : option Z) : Z * Z :=
  match tz with
  | None => (0, 0)
  | Some off => if bool_decide (0 <= off) then (1, off) else (2, - off)
  end.

Definition text_le (a b : datetime) : Prop :=
  wall a < wall b ∨
  (wall a = wall b ∧
     ((suffix_key (tzinfo a)).1 < (suffix_key (tzinfo b)).1 ∨
      ((suffix_key (tzinfo a)).1 = (suffix_key (tzinfo b)).1 ∧
       (suffix_key (tzinfo a)).2 <= (suffix_key (tzinfo b)).2))).

Global Instance text_le_dec : RelDecision text_le.
Proof. intros a b. unfold text_le. apply _. Defined.

(** ** Rows and the store *)

(** The columns of table [classes] other than the primary key [id]. *)
Record class_row := mk_row {
  name : string;
  date_time : datetime;
  instructor : string;
  available_slots : Z;
  total_slots : Z
}.

(** A class as the operations hand it out (the dict of [database.py], the
    [FitnessClass] of [models.py]): the key and the columns. *)
Record FitnessClass := mk_class {
  fc_id : Z;
  fc_row : class_row
}.

(** A row of table [bookings]. *)
Record Booking := mk_booking {
  booking_id : Z;
  class_id : Z;
  client_name : string;
  client_email : string;
  booking_date : datetime
}.

(** A row of the join [get_bookings_by_email] selects; [BookingHistory]. *)
Record BookingHistory := mk_history {
  bh_id : Z;
  class_name : string;
  bh_client_name : string;
  bh_client_email : string;
  bh_booking_date : datetime
}.

Record BookingRequest := mk_request {
  req_class_id : Z;
  req_client_name : string;
  req_client_email : string
}.

Record BookingResponse := mk_response {
  resp_booking_id : Z;
  resp_class_name : string;
  resp_client_name : string;
  resp_client_email : string;
  resp_booking_date : datetime;
  message : string
}.

(** The SQLite file: both tables and the AUTOINCREMENT counter of
    [bookings] (its row in table [sqlite_sequence]). *)
Record store := mk_store {
  classes : gmap Z class_row;
  bookings : list Booking;
  sqlite_sequence : Z
}.

Definition class_order (c1 c2 : FitnessClass) : Prop :=
  text_le (date_time (fc_row c1)) (date_time (fc_row c2)).

Global Instance class_order_dec : RelDecision class_order.
Proof. intros c1 c2. unfold class_order. apply _. Defined.

(** [booking_date DESC]. *)
Definition history_order (h1 h2 : BookingHistory) : Prop :=
  text_le (bh_booking_date h2) (bh_booking_date h1).

Global Instance history_order_dec : RelDecision history_order.
Proof. intros h1 h2. unfold history_order. apply _. Defined.

(** ** database.py *)

Module Database.

(** The statements [create_booking] runs inside its [try]; each of them
    may fail with a storage fault. *)
Inductive stmt := SelectClass | SelectBooking | InsertBooking | UpdateClass | Commit.

(** A connection: the database file and the view of the open
    transaction. *)
Record conn := mk_conn { durable : store; pending : store }.

Definition get_connection (db : store) : conn := {| durable := db; pending := db |}.
Definition commit (c : conn) : conn := {| durable := pending c; pending := pending c |}.
Definition rollback (c : conn) : conn := {| durable := durable c; pending := durable c |}.
(** Closing drops what was not committed. *)
Definition close (c : conn) : store := durable c.

(** Outcome of a block of code: it returned a value, or raised. *)
Inductive outcome (A : Type) := Returned (a : A) | Raised.
Global Arguments Returned {A} a.
Global Arguments Raised {A}.

(** Code that runs on an open connection. *)
Definition tx (A : Type) : Type := conn → outcome A * conn.

Global Instance tx_ret : MRet tx := λ A a c, (Returned a, c).
Global Instance tx_bind : MBind tx := λ A B f m c,
  match m c with
  | (Returned a, c') => f a c'
  | (Raised, c') => (Raised, c')
  end.

(** [cursor.execute] of statement [s] with effect [q] on the open
    transaction: raises on a fault, before any effect. *)
Definition execute {A} (faults : stmt → bool) (s : stmt) (q : store → A * store) : tx A :=
  λ c, if faults s then (Raised, c)
       else let '(a, p) := q (pending c) in
            (Returned a, {| durable := durable c; pending := p |}).

(** [conn.commit()]. *)
Definition do_commit (faults : stmt → bool) : tx unit :=
  λ c, if faults Commit then (Raised, c) else (Returned (), commit c).

Definition to_class (kv : Z * class_row) : FitnessClass :=
  {| fc_id := kv.1; fc_row := kv.2 |}.

(** [get_all_classes]:
    SELECT ... FROM classes WHERE datetime(date_time) > datetime('now')
    ORDER BY date_time *)
Definition get_all_classes (now : Z) (db : store) : list FitnessClass :=
  merge_sort class_order
    (filter (λ c, sql_datetime_now now < sql_datetime (date_time (fc_row c)))
            (to_class <$> map_to_list (classes db))).

(** [get_class_by_id]: SELECT ... FROM classes WHERE id = ? *)
Definition get_class_by_id (class_id : Z) (db : store) : option FitnessClass :=
  mk_class class_id <$> classes db !! class_id.

(** SELECT name, date_time, available_slots FROM classes
    WHERE id = ? AND available_slots > 0 *)
Definition select_class (class_id : Z) (db : store) : option class_row :=
  r ← classes db !! class_id;
  if bool_decide (0 < available_slots r) then Some r else None.

(** SELECT id FROM bookings WHERE class_id = ? AND client_email = ? *)
Definition select_booking (class_id0 : Z) (client_email0 : string) (db : store)
    : option Booking :=
  head (filter (λ b, class_id b = class_id0 ∧ client_email b = client_email0)
               (bookings db)).

(** AUTOINCREMENT: one more than the largest rowid the table ever had. *)
Definition next_rowid (db : store) : Z :=
  1 + foldr Z.max (sqlite_sequence db) (booking_id <$> bookings db).

(** INSERT INTO bookings (class_id, client_name, client_email, booking_date);
    the value is [cursor.lastrowid]. *)
Definition insert_booking (class_id0 : Z) (client_name0 client_email0 : string)
    (booking_date0 : datetime) (db : store) : Z * store :=
  let rowid := next_rowid db in
  (rowid,
   {| classes := classes db;
      bookings := bookings db ++
        [{| booking_id := rowid; class_id := class_id0;
            client_name := client_name0; client_email := client_email0;
            booking_date := booking_date0 |}];
      sqlite_sequence := rowid |}).

Definition take_slot (r : class_row) : class_row :=
  {| name := name r; date_time := date_time r; instructor := instructor r;
     available_slots := available_slots r - 1;
     total_slots := total_slots r |}.

(** UPDATE classes SET available_slots = available_slots - 1 WHERE id = ? *)
Definition update_slots (class_id : Z) (db : store) : store :=
  {| classes := alter take_slot class_id (classes db);
     bookings := bookings db; sqlite_sequence := sqlite_sequence db |}.

(** The body of the [try] of [create_booking]. *)
Definition create_booking_try (faults : stmt → bool)
    (class_id0 : Z) (client_name0 client_email0 : string) : tx (option Z) :=
  class_data ← execute faults SelectClass (λ p, (select_class class_id0 p, p));
  match class_data with
  | None => mret None
  | Some class_data =>
    existing ← execute faults SelectBooking
                 (λ p, (select_booking class_id0 client_email0 p, p));
    match existing with
    | Some _ => mret None
    | None =>
      booking_id0 ← execute faults InsertBooking
                      (insert_booking class_id0 client_name0 client_email0
                                      (date_time class_data));
      _ ← execute faults UpdateClass (λ p, ((), update_slots class_id0 p));
      _ ← do_commit faults;
      mret (Some booking_id0)
    end
  end.

(** [create_booking] from its [try] on (lines 181-227), on the connection
    and the cursor that lines 178-179 have opened: the [try] and its
    [except], which rolls back and answers [None]; on every path the
    connection is closed. *)
Definition create_booking (faults : stmt → bool)
    (class_id0 : Z) (client_name0 client_email0 : string) (db : store)
    : outcome (option Z) * store :=
  match create_booking_try faults class_id0 client_name0 client_email0
                           (get_connection db) with
  | (Returned r, c) => (Returned r, close c)
  | (Raised, c) => (Returned None, close (rollback c))
  end.

(** Lines 178-179, [conn = self.get_connection()] and
    [cursor = conn.cursor()], stand before the [try]: each of them returns,
    or raises with a storage fault that no handler of [create_booking]
    catches. *)
Inductive opening := Opened | ConnectRaises | CursorRaises.

Global Instance opening_eq_dec : EqDecision opening.
Proof. solve_decision. Defined.

(** [create_booking], the whole call: when the connection or its cursor
    cannot be opened the exception leaves the function and no statement has
    run; otherwise the call goes on with the [try]. *)
Definition create_booking_call (o : opening) (faults : stmt → bool)
    (class_id0 : Z) (client_name0 client_email0 : string) (db : store)
    : outcome (option Z) * store :=
  match o with
  | ConnectRaises | CursorRaises => (Raised, db)
  | Opened => create_booking faults class_id0 client_name0 client_email0 db
  end.

Definition join_row (b : Booking) (r : class_row) : BookingHistory :=
  {| bh_id := booking_id b; class_name := name r;
     bh_client_name := client_name b; bh_client_email := client_email b;
     bh_booking_date := booking_date b |}.

(** [get_bookings_by_email]:
    SELECT b.id, c.name, ... FROM bookings b JOIN classes c ON b.class_id = c.id
    WHERE b.client_email = ? ORDER BY b.booking_date DESC *)
Definition get_bookings_by_email (email : string) (db : store) : list BookingHistory :=
  merge_sort history_order
    (omap (λ b, join_row b <$> classes db !! class_id b)
          (filter (λ b, client_email b = email) (bookings db))).

(** [get_booking_by_id]:
    SELECT b.id, c.name, ... FROM bookings b JOIN classes c ON b.class_id = c.id
    WHERE b.id = ? *)
Definition get_booking_by_id (booking_id0 : Z) (db : store) : option BookingHistory :=
  head (omap (λ b, join_row b <$> classes db !! class_id b)
             (filter (λ b, booking_id b = booking_id0) (bookings db))).

End Database.

(** ** models.py *)

(** Characters of an e-mail address are ASCII: the pattern of
    [validate_client_email] admits no other. *)
Definition is_upper (c : ascii) : bool :=
  let n := nat_of_ascii c in bool_decide (65 ≤ n ≤ 90)%nat.
Definition is_lower (c : ascii) : bool :=
  let n := nat_of_ascii c in bool_decide (97 ≤ n ≤ 122)%nat.
Definition is_digit (c : ascii) : bool :=
  let n := nat_of_ascii c in bool_decide (48 ≤ n ≤ 57)%nat.

Definition lower_char (c : ascii) : ascii :=
  if is_upper c then ascii_of_nat (nat_of_ascii c + 32) else c.
Definition upper_char (c : ascii) : ascii :=
  if is_lower c then ascii_of_nat (nat_of_ascii c - 32) else c.

Fixpoint map_string (f : ascii → ascii) (s : string) : string :=
  match s with
  | EmptyString => EmptyString
  | String c s' => String (f c) (map_string f s')
  end.

(** [str.lower] and [str.upper]. *)
Definition lower : string → string := map_string lower_char.
Definition upper : string → string := map_string upper_char.

(** Regular expressions, as far as [email_pattern] needs them. *)
Inductive regex :=
| Empty                              (* matches nothing *)
| Eps                                (* the empty string *)
| Class (p : ascii → bool)           (* one character of a class *)
| Seq (r1 r2 : regex)
| Alt (r1 r2 : regex)
| Star (r : regex).

Definition Plus (r : regex) : regex := Seq r (Star r).
Definition Lit (c : ascii) : regex := Class (λ x, bool_decide (x = c)).

Fixpoint nullable (r : regex) : bool :=
  match r with
  | Empty => false
  | Eps => true
  | Class _ => false
  | Seq r1 r2 => nullable r1 && nullable r2
  | Alt r1 r2 => nullable r1 || nullable r2
  | Star _ => true
  end.

(** The derivative of [r] by the character [c]. *)
Fixpoint deriv (c : ascii) (r : regex) : regex :=
  match r with
  | Empty => Empty
  | Eps => Empty
  | Class p => if p c then Eps else Empty
  | Seq r1 r2 =>
      if nullable r1 then Alt (Seq (deriv c r1) r2) (deriv c r2)
      else Seq (deriv c r1) r2
  | Alt r1 r2 => Alt (deriv c r1) (deriv c r2)
  | Star r1 => Seq (deriv c r1) (Star r1)
  end.

(** The whole string is in the language of [r]. *)
Fixpoint fullmatch (r : regex) (s : string) : bool :=
  match s with
  | EmptyString => nullable r
  | String c s' => fullmatch (deriv c r) s'
  end.

Definition is_alpha (c : ascii) : bool := is_lower c || is_upper c.
Definition is_alnum (c : ascii) : bool := is_alpha c || is_digit c.
Definition one_of (cs : string) (c : ascii) : bool :=
  bool_decide (c ∈ list_ascii_of_string cs).

(** [email_pattern = r'^[a-zA-Z0-9._%+-]+@[a-zA-Z0-9.-]+\.[a-zA-Z]{2,}$'];
    [$] also matches before a newline that ends the string. *)
Definition email_pattern : regex :=
  Seq (Plus (Class (λ c, is_alnum c || one_of "._%+-" c)))
 (Seq (Lit "@")
 (Seq (Plus (Class (λ c, is_alnum c || one_of ".-" c)))
 (Seq (Lit ".")
 (Seq (Class is_alpha) (Seq (Class is_alpha) (Star (Class is_alpha))))))).

Definition newline : ascii := ascii_of_nat 10.

(** [re.match(email_pattern, v)]. *)
Definition re_match_email (v : string) : bool :=
  fullmatch (Seq email_pattern (Alt Eps (Lit newline))) v.

(** [BookingRequest.validate_client_email]: [None] stands for the
    [ValueError]. *)
Definition validate_client_email (v : string) : option string :=
  if re_match_email v then Some (lower v) else None.

(** [BookingRequest.validate_class_id]. *)
Definition validate_class_id (v : Z) : option Z :=
  if bool_decide (v <= 0) then None else Some v.

(** [str.strip()]: the white space of Python among the characters up to
    code point 255. *)
Definition is_space (c : ascii) : bool :=
  bool_decide (nat_of_ascii c ∈ [9; 10; 11; 12; 13; 28; 29; 30; 31; 32; 133; 160]%nat).

Fixpoint lstrip_list (l : list ascii) : list ascii :=
  match l with
  | [] => []
  | c :: l' => if is_space c then lstrip_list l' else l
  end.

Definition strip_list (l : list ascii) : list ascii :=
  reverse (lstrip_list (reverse (lstrip_list l))).

Definition strip (s : string) : string :=
  string_of_list_ascii (strip_list (list_ascii_of_string s)).

(** The list does not begin with white space. *)
Definition no_leading_space (l : list ascii) : Prop :=
  match l with
  | [] => True
  | c :: _ => is_space c = false
  end.

(** [BookingRequest.validate_client_name]: the trimmed name, or the message
    of the [ValueError]. *)
Definition validate_client_name (v : string) : string + string :=
  if bool_decide (strip v = EmptyString) then inl "Client name cannot be empty"%string
  else if bool_decide (String.length (strip v) < 2)%nat
       then inl "Client name must be at least 2 characters long"%string
       else inr (strip v).

(** [BookingRequest(class_id=..., client_name=..., client_email=...)]: the
    three validators; [None] stands for the [ValidationError]. *)
Definition BookingRequest_new (class_id0 : Z) (client_name0 client_email0 : string)
    : option BookingRequest :=
  match validate_class_id class_id0, validate_client_name client_name0,
        validate_client_email client_email0 with
  | Some cid, inr n, Some e =>
      Some {| req_class_id := cid; req_client_name := n; req_client_email := e |}
  | _, _, _ => None
  end.

(** ** Python numbers

    A Python [float] is an IEEE 754 binary64 number, [spec_float] with
    precision 53 and exponent bound 1024. *)

Inductive pynum :=
| PyInt (z : Z)
| PyFloat (x : spec_float).

(** An integer as an exact (unrounded) mantissa with exponent 0. *)
Definition exact_int (z : Z) : spec_float :=
  match z with
  | Z0 => S754_zero false
  | Zpos p => S754_finite false p 0
  | Zneg p => S754_finite true p 0
  end.

(** [a / b] on two [int]s: the quotient, rounded once to the nearest
    binary64, ties to even. *)
Definition int_truediv (a b : Z) : spec_float :=
  SFdiv 53 1024 (exact_int a) (exact_int b).

(** [float(z)]. *)
Definition float_of_int (z : Z) : spec_float := binary_normalize 53 1024 z 0 false.

(** [x * z] for a [float] x and an [int] z. *)
Definition float_mul_int (x : spec_float) (z : Z) : spec_float :=
  SFmul 53 1024 x (float_of_int z).

(** [num / den] rounded to the nearest integer, ties to even ([0 < den]). *)
Definition round_half_even (num den : Z) : Z :=
  let q := num / den in
  let r := num mod den in
  match 2 * r ?= den with
  | Lt => q
  | Gt => q + 1
  | Eq => if Z.even q then q else q + 1
  end.

(** [round(x, 2)] on a [float]: the exact value of [x] is rounded to two
    decimals, ties to even, and the decimal read back as a binary64. *)
Definition py_round2 (x : spec_float) : spec_float :=
  match x with
  | S754_finite s m e =>
      let n := if bool_decide (0 <= e) then Zpos m * 2 ^ e * 100
               else round_half_even (Zpos m * 100) (2 ^ (- e)) in
      SFdiv 53 1024
        (match n with Zpos p => S754_finite s p 0 | _ => S754_zero s end)
        (exact_int 100)
  | _ => x
  end.

(** Python's [sum] over integers. *)
Definition py_sum (l : list Z) : Z := foldl Z.add 0 l.

(** The dict [get_booking_statistics] returns. *)
Record statistics := mk_statistics {
  total_classes : Z;
  stat_total_slots : Z;
  stat_available_slots : Z;
  booked_slots : Z;
  booking_percentage : pynum
}.

(** ** services.py *)

Module BookingService.

(** [get_all_classes]: the rows of the store's listing that
    [is_future_class] accepts, in the order the store gave them.  The
    listing is taken at one clock reading, [now], which stands for the
    reading of the query and for those of the loop over its rows. *)
Definition get_all_classes (now : Z) (db : store) : list FitnessClass :=
  filter (λ c, is_future_class now (date_time (fc_row c)))
         (Database.get_all_classes now db).

(** [get_class_by_id]. *)
Definition get_class_by_id (now : Z) (class_id0 : Z) (db : store) : option FitnessClass :=
  match Database.get_class_by_id class_id0 db with
  | None => None
  | Some class_data =>
      if negb (is_future_class now (date_time (fc_row class_data))) then None
      else Some class_data
  end.

(** [create_booking], over the call [db.create_booking] it makes; the result
    is paired with the store the call leaves.  An exception of
    [db.create_booking] is caught by the [except] of the service, which
    answers [None]. *)
Definition create_booking_over
    (db_create_booking : Z → string → string → store → Database.outcome (option Z) * store)
    (now : Z) (booking_request : BookingRequest) (db : store)
    : option BookingResponse * store :=
  match get_class_by_id now (req_class_id booking_request) db with
  | None => (None, db)
  | Some fitness_class =>
      if bool_decide (available_slots (fc_row fitness_class) <= 0) then (None, db)
      else
        match db_create_booking (req_class_id booking_request)
                (req_client_name booking_request) (req_client_email booking_request) db with
        | (Database.Raised, db') => (None, db')
        | (Database.Returned None, db') => (None, db')
        | (Database.Returned (Some booking_id0), db') =>
            if bool_decide (booking_id0 = 0) then (None, db')
            else
              (Some {| resp_booking_id := booking_id0;
                       resp_class_name := name (fc_row fitness_class);
                       resp_client_name := req_client_name booking_request;
                       resp_client_email := req_client_email booking_request;
                       resp_booking_date := date_time (fc_row fitness_class);
                       message := "Booking successful!" |},
               db')
        end
  end.

(** [create_booking] when the store opens its connection and cursor. *)
Definition create_booking (now : Z) (faults : Database.stmt → bool)
    (booking_request : BookingRequest) (db : store) : option BookingResponse * store :=
  create_booking_over (Database.create_booking faults) now booking_request db.

(** [create_booking], the whole call. *)
Definition create_booking_call (now : Z) (o : Database.opening)
    (faults : Database.stmt → bool)
    (booking_request : BookingRequest) (db : store) : option BookingResponse * store :=
  create_booking_over (Database.create_booking_call o faults) now booking_request db.

(** [get_bookings_by_email]. *)
Definition get_bookings_by_email (email : string) (db : store) : list BookingHistory :=
  Database.get_bookings_by_email email db.

(** The loop of [validate_booking_request] over the client's bookings. *)
Definition already_booked (fitness_class : FitnessClass) (existing_bookings : list BookingHistory)
    : bool :=
  existsb (λ booking,
             bool_decide (class_name booking = name (fc_row fitness_class))
             && dt_eq (bh_booking_date booking) (date_time (fc_row fitness_class)))
          existing_bookings.

(** [validate_booking_request]. *)
Definition validate_booking_request (now : Z) (booking_request : BookingRequest) (db : store)
    : bool * string :=
  match get_class_by_id now (req_class_id booking_request) db with
  | None => (false, "Class not found or not available")
  | Some fitness_class =>
      if bool_decide (available_slots (fc_row fitness_class) <= 0)
      then (false, "No available slots for this class")
      else if already_booked fitness_class
                (get_bookings_by_email (req_client_email booking_request) db)
      then (false, "You have already booked this class")
      else (true, "Valid booking request")
  end.

(** [get_booking_statistics]. *)
Definition get_booking_statistics (now : Z) (db : store) : statistics :=
  let all_classes := get_all_classes now db in
  let total_classes0 := Z.of_nat (length all_classes) in
  let total_slots0 := py_sum ((λ c, total_slots (fc_row c)) <$> all_classes) in
  let available_slots0 := py_sum ((λ c, available_slots (fc_row c)) <$> all_classes) in
  let booked_slots0 := total_slots0 - available_slots0 in
  {| total_classes := total_classes0;
     stat_total_slots := total_slots0;
     stat_available_slots := available_slots0;
     booked_slots := booked_slots0;
     booking_percentage :=
       if bool_decide (0 < total_slots0)
       then PyFloat (py_round2 (float_mul_int (int_truediv booked_slots0 total_slots0) 100))
       else PyInt 0 |}.

End BookingService.

(** ** main.py: the [/book] handler *)

(** [book_class]: validate, then create; the reason of a rejection, or the
    response.  Validation and creation each reach [is_future_class], which
    reads the clock: [now] is the reading of the validation, [later] the one
    of the creation. *)
Definition book_class (now later : Z) (o : Database.opening) (faults : Database.stmt → bool)
    (booking_request : BookingRequest) (db : store) : (string + BookingResponse) * store :=
  match BookingService.validate_booking_request now booking_request db with
  | (false, reason) => (inl reason, db)
  | (true, _) =>
      match BookingService.create_booking_call later o faults booking_request db with
      | (None, db') => (inl "Failed to create booking. Please try again."%string, db')
      | (Some booking_response, db') => (inr booking_response, db')
      end
  end.


(** ** Histories of calls *)

(** The calls that can change the store, in each layer. *)
Inductive op :=
| DbCreateBooking (o : Database.opening) (faults : Database.stmt → bool)
    (class_id0 : Z) (client_name0 client_email0 : string)
| ServiceCreateBooking (now : Z) (o : Database.opening) (faults : Database.stmt → bool)
    (booking_request : BookingRequest)
| BookClass (now later : Z) (o : Database.opening) (faults : Database.stmt → bool)
    (booking_request : BookingRequest).

Definition run_op (db : store) (o : op) : store :=
  match o with
  | DbCreateBooking opn faults c n e => (Database.create_booking_call opn faults c n e db).2
  | ServiceCreateBooking now opn faults rq =>
      (BookingService.create_booking_call now opn faults rq db).2
  | BookClass now later opn faults rq => (book_class now later opn faults rq db).2
  end.

Definition run (ops : list op) (db : store) : store := foldl run_op db ops.

(** The stores the system can be in: a seeded table of classes and no
    booking, then any history of calls. *)
Inductive reachable : store → Prop :=
| reachable_seed cls : reachable {| classes := cls; bookings := []; sqlite_sequence := 0 |}
| reachable_step db o : reachable db → reachable (run_op db o).

(** The rows of [bookings] for a class and an e-mail address. *)
Definition bookings_for (class_id0 : Z) (client_email0 : string) (db : store) : list Booking :=
  filter (λ b, class_id b = class_id0 ∧ client_email b = client_email0) (bookings db).

(** What a committed booking leaves: the new row and one slot less. *)
Definition booked (class_id0 : Z) (client_name0 client_email0 : string)
    (r : class_row) (db : store) : store :=
  {| classes := <[class_id0 := Database.take_slot r]> (classes db);
     bookings := bookings db ++
       [{| booking_id := Database.next_rowid db; class_id := class_id0;
           client_name := client_name0; client_email := client_email0;
           booking_date := date_time r |}];
     sqlite_sequence := Database.next_rowid db |}.

(** No statement fails. *)
Definition no_faults : Database.stmt → bool := λ _, false.

(** Every booking carries the stored start time of its class. *)
Definition booking_dates_ok (db : store) : Prop :=
  ∀ b, b ∈ bookings db →
    ∃ r, classes db !! class_id b = Some r ∧ booking_date b = date_time r.

(** ** The seeded store and sample data *)

(** [timedelta(days=d, hours=h)], in microseconds. *)
Definition timedelta (days hours : Z) : Z := (days * 24 + hours) * 3600 * usec_per_sec.

(** [dt + delta]: the wall clock moves, the offset stays. *)
Definition plus_timedelta (dt : datetime) (delta : Z) : datetime :=
  {| wall := wall dt + delta; tzinfo := tzinfo dt |}.

(** [seed_data], on the empty tables [init_database] creates in a fresh
    file: the five sample classes get the ids 1 to 5. *)
Definition sample_class (now : Z) (n : string) (days hours : Z) (i : string) (slots : Z)
    : class_row :=
  {| name := n;
     date_time := plus_timedelta (get_current_ist_time now) (timedelta days hours);
     instructor := i; available_slots := slots; total_slots := slots |}.

Definition seed_data (now : Z) : store :=
  {| classes :=
       <[1 := sample_class now "Yoga" 1 10 "Sarah Johnson" 20]>
      (<[2 := sample_class now "Zumba" 1 18 "Mike Rodriguez" 15]>
      (<[3 := sample_class now "HIIT" 2 7 "Emma Wilson" 12]>
      (<[4 := sample_class now "Pilates" 2 16 "David Chen" 10]>
      (<[5 := sample_class now "Spinning" 3 9 "Lisa Thompson" 18]> ∅))));
     bookings := [];
     sqlite_sequence := 0 |}.

(** The request of the tests: John Doe books class 1. *)
Definition john : BookingRequest :=
  {| req_class_id := 1; req_client_name := "John Doe";
     req_client_email := "john@example.com" |}.

(** ** The listing, as a predicate on rows *)

(** The two filters a row passes to be listed: the one of the SQL query, on
    whole seconds, and [is_future_class] in the service. *)
Definition upcoming (now : Z) (r : class_row) : Prop :=
  sql_datetime_now now < sql_datetime (date_time r) ∧ now < start_time (date_time r).

Global Instance upcoming_dec now r : Decision (upcoming now r).
Proof. unfold upcoming. apply _. Defined.

(** Ascending start times. *)
Definition start_order (c1 c2 : FitnessClass) : Prop :=
  start_time (date_time (fc_row c1)) <= start_time (date_time (fc_row c2)).

(** A class that starts half a second after a full second, and a store
    with one class. *)
Definition half_past (sec : Z) : class_row :=
  {| name := "Yoga";
     date_time := plus_timedelta (get_current_ist_time (sec * usec_per_sec)) 500000;
     instructor := "Sarah Johnson"; available_slots := 20; total_slots := 20 |}.

Definition one_class (r : class_row) : store :=
  {| classes := {[1 := r]}; bookings := []; sqlite_sequence := 0 |}.

(** ** The example of the statistics *)

(** The float a decimal literal with two decimals denotes: [57.14] is
    [decimal2 5714].  Python reads a literal as the nearest binary64. *)
Definition decimal2 (hundredths : Z) : spec_float := int_truediv hundredths 100.

(** The clients of the tests: [User i] with address [useri@example.com]. *)
Definition user_request (cid : Z) (i : nat) : BookingRequest :=
  {| req_class_id := cid;
     req_client_name := "User " +:+ pretty i;
     req_client_email := "user" +:+ pretty i +:+ "@example.com" |}.

(** The first [k] clients book class [cid] through the [/book] handler. *)
Definition users_book (now : Z) (cid : Z) (k : nat) : list op :=
  (λ i, BookClass now now Database.Opened no_faults (user_request cid i)) <$> List.seq 0 k.

(** A store with two classes, of 20 and of 15 slots. *)
Definition two_classes (now : Z) : store :=
  {| classes :=
       <[1 := sample_class now "Yoga" 1 10 "Sarah Johnson" 20]>
      (<[2 := sample_class now "Zumba" 1 18 "Mike Rodriguez" 15]> ∅);
     bookings := [];
     sqlite_sequence := 0 |}.

(** ... after 5 bookings of the first and 15 of the second. *)
Definition two_classes_booked (now : Z) : store :=
  run (users_book now 1 5 ++ users_book now 2 15) (two_classes now).

(** Sum of a column over rows of table [classes]. *)
Definition column_sum (col : class_row → Z) (rows : list (Z * class_row)) : Z :=
  foldr Z.add 0 ((λ kv, col kv.2) <$> rows).

(** The rows of table [classes] that pass both filters of the listing. *)
Definition upcoming_rows (now : Z) (db : store) : list (Z * class_row) :=
  filter (λ kv, upcoming now kv.2) (map_to_list (classes db)).

(** The rows of table [classes] whose start time is strictly after the
    clock reading. *)
Definition future_rows (now : Z) (db : store) : list (Z * class_row) :=
  filter (λ kv, now < start_time (date_time kv.2)) (map_to_list (classes db)).

(** ** Requests by address *)

(** The request pydantic builds when the address passes
    [validate_client_email]; class id and name are taken as validated. *)
Definition request_with_email (cid : Z) (client_name0 raw_email : string)
    : option BookingRequest :=
  email ← validate_client_email raw_email;
  Some {| req_class_id := cid; req_client_name := client_name0;
          req_client_email := email |}.

(** Every character class of [r] is blind to the character map [f]. *)
Fixpoint respects (f : ascii → ascii) (r : regex) : Prop :=
  match r with
  | Empty | Eps => True
  | Class p => ∀ c, p (f c) = p c
  | Seq r1 r2 | Alt r1 r2 => respects f r1 ∧ respects f r2
  | Star r1 => respects f r1
  end.

(** ** The two duplicate checks *)

(** No two classes share both name and start time, where start times are
    compared the way [validate_booking_request] compares them. *)
Definition unique_name_time (db : store) : Prop :=
  ∀ i j ri rj,
    classes db !! i = Some ri → classes db !! j = Some rj →
    name ri = name rj → dt_eq (date_time ri) (date_time rj) = true →
    i = j.

(** A store with one class, which John has booked. *)
Definition johns_store : store :=
  run [BookClass 0 0 Database.Opened no_faults john] (one_class (half_past 10)).

(** ** utils.py, the remaining helpers *)



(** ** main.py, the other handlers *)

Module Api.

(** What a handler answers: the body, or the [HTTPException] it raises. *)
Inductive response (A : Type) :=
| Ok (body : A)
| HTTPException (status_code : Z) (detail : string).
Global Arguments Ok {A} body.
Global Arguments HTTPException {A} status_code detail.

(** [GET /classes]. *)
Definition get_classes (now : Z) (db : store) : response (list FitnessClass) :=
  Ok (BookingService.get_all_classes now db).

(** [GET /bookings?email=...]. *)
Definition get_bookings (email : string) (db : store) : response (list BookingHistory) :=
  if bool_decide (email = EmptyString ∨ "@"%char ∉ list_ascii_of_string email)
  then HTTPException 400 "Valid email address is required"
  else Ok (BookingService.get_bookings_by_email email db).

(** [GET /classes/{class_id}]. *)
Definition get_class_by_id (now : Z) (class_id0 : Z) (db : store) : response FitnessClass :=
  if bool_decide (class_id0 <= 0) then HTTPException 400 "Invalid class ID"
  else match BookingService.get_class_by_id now class_id0 db with
       | None => HTTPException 404 "Class not found"
       | Some fitness_class => Ok fitness_class
       end.

End Api.

(** ** Opening the database *)

(** [Database.__init__] on a file: [init_database] creates the tables that
    are missing, [seed_data] inserts the sample classes when table [classes]
    is empty. *)
Definition open_database (now : Z) (db : store) : store :=
  if bool_decide (classes db = ∅)
  then {| classes := classes (seed_data now); bookings := bookings db;
          sqlite_sequence := sqlite_sequence db |}
  else db.

(** The rows of [bookings] for a class. *)
Definition class_bookings (class_id0 : Z) (db : store) : list Booking :=
  filter (λ b, class_id b = class_id0) (bookings db).


(** The response the service builds for a booking of class row [r]. *)
Definition response_for (rq : BookingRequest) (r : class_row) (bid : Z) : BookingResponse :=
  {| resp_booking_id := bid; resp_class_name := name r;
     resp_client_name := req_client_name rq;
     resp_client_email := req_client_email rq;
     resp_booking_date := date_time r;
     message := "Booking successful!" |}.

(** Some string without ['@'] is in the language of [r]. *)
Fixpoint matches_without_at (r : regex) : bool :=
  match r with
  | Empty => false
  | Eps => true
  | Class p =>
      existsb (λ n, let c := ascii_of_nat n in
                    p c && negb (bool_decide (c = "@"%char))) (List.seq 0 256)
  | Seq r1 r2 => matches_without_at r1 && matches_without_at r2
  | Alt r1 r2 => matches_without_at r1 || matches_without_at r2
  | Star _ => true
  end.

(** ** The transactional unit, case by case *)

Lemma alter_take_slot (cls : gmap Z class_row) (c : Z) (r : class_row) :
  cls !! c = Some r → alter Database.take_slot c cls = <[c := Database.take_slot r]> cls.
Proof.
  intros H. apply map_eq. intros i.
  destruct (decide (c = i)) as [->|Hne].
  - by rewrite lookup_alter_eq, H, lookup_insert_eq.
  - by rewrite lookup_alter_ne, lookup_insert_ne.
Qed.

Lemma select_class_Some c db r :
  Database.select_class c db = Some r ↔ classes db !! c = Some r ∧ 0 < available_slots r.
Proof.
  unfold Database.select_class. destruct (classes db !! c) as [r0|]; simpl.
  - case_bool_decide; split.
    + intros [= ->]. done.
    + intros [[= ->] _]. done.
    + done.
    + intros [[= ->] ?]. lia.
  - split; [done|]. by intros [? _].
Qed.

Lemma select_class_None c db :
  Database.select_class c db = None ↔
  classes db !! c = None ∨ ∃ r, classes db !! c = Some r ∧ available_slots r <= 0.
Proof.
  unfold Database.select_class. destruct (classes db !! c) as [r0|]; simpl.
  - case_bool_decide; split.
    + done.
    + intros [?|(r & [= ->] & ?)]; [done|lia].
    + intros _. right. exists r0. split; [done|lia].
    + done.
  - split; [by left|done].
Qed.

Lemma select_booking_None c e db :
  Database.select_booking c e db = None ↔ bookings_for c e db = [].
Proof.
  unfold Database.select_booking, bookings_for.
  destruct (filter _ (bookings db)); simpl; split; done.
Qed.

(** The result of [create_booking], by the checks and the faults. *)
Lemma create_booking_unfold faults c n e db :
  Database.create_booking faults c n e db =
  if faults Database.SelectClass then (Database.Returned None, db)
  else match Database.select_class c db with
       | None => (Database.Returned None, db)
       | Some r =>
         if faults Database.SelectBooking then (Database.Returned None, db)
         else match Database.select_booking c e db with
              | Some _ => (Database.Returned None, db)
              | None =>
                if faults Database.InsertBooking || faults Database.UpdateClass
                   || faults Database.Commit
                then (Database.Returned None, db)
                else (Database.Returned (Some (Database.next_rowid db)), booked c n e r db)
              end
       end.
Proof.
  unfold Database.create_booking, Database.create_booking_try, Database.get_connection.
  unfold mbind, Database.tx_bind, mret, Database.tx_ret, Database.execute, Database.do_commit.
  unfold Database.close, Database.rollback, Database.commit.
  cbn [Database.pending Database.durable].
  destruct (faults Database.SelectClass); [reflexivity|].
  destruct (Database.select_class c db) as [r|] eqn:Hsel; [|reflexivity].
  destruct (faults Database.SelectBooking); [reflexivity|].
  cbn [Database.pending Database.durable].
  destruct (Database.select_booking c e db); [reflexivity|].
  destruct (faults Database.InsertBooking); [reflexivity|].
  cbn [Database.pending Database.durable Database.insert_booking].
  destruct (faults Database.UpdateClass); [reflexivity|].
  cbn [Database.pending Database.durable].
  destruct (faults Database.Commit); [reflexivity|].
  cbn [Database.pending Database.durable orb].
  unfold Database.update_slots, Database.insert_booking, booked. simpl.
  apply select_class_Some in Hsel as [Hl _].
  by rewrite (alter_take_slot _ _ _ Hl).
Qed.

(** A call either changes nothing and answers [None], or commits the
    whole booking. *)
Lemma create_booking_cases faults c n e db :
  Database.create_booking faults c n e db = (Database.Returned None, db) ∨
  ∃ r, classes db !! c = Some r ∧ 0 < available_slots r ∧ bookings_for c e db = [] ∧
       (∀ s, faults s = false) ∧
       Database.create_booking faults c n e db =
         (Database.Returned (Some (Database.next_rowid db)), booked c n e r db).
Proof.
  rewrite create_booking_unfold.
  destruct (faults Database.SelectClass) eqn:F1; [by left|].
  destruct (Database.select_class c db) as [r|] eqn:Hsel; [|by left].
  destruct (faults Database.SelectBooking) eqn:F2; [by left|].
  destruct (Database.select_booking c e db) eqn:Hdup; [by left|].
  destruct (faults Database.InsertBooking) eqn:F3; [by left|].
  destruct (faults Database.UpdateClass) eqn:F4; [by left|].
  destruct (faults Database.Commit) eqn:F5; [by left|].
  right. exists r. apply select_class_Some in Hsel as [? ?].
  apply select_booking_None in Hdup.
  split_and!; try done. by intros [].
Qed.

(** The whole call raises exactly when the connection or the cursor
    cannot be opened, and then leaves the store as it was. *)
Lemma create_booking_call_Opened faults c n e db :
  Database.create_booking_call Database.Opened faults c n e db =
  Database.create_booking faults c n e db.
Proof. reflexivity. Qed.

Lemma create_booking_call_not_Opened o faults c n e db :
  o ≠ Database.Opened →
  Database.create_booking_call o faults c n e db = (Database.Raised, db).
Proof. by destruct o. Qed.

Lemma service_create_booking_call_Opened now faults rq db :
  BookingService.create_booking_call now Database.Opened faults rq db =
  BookingService.create_booking now faults rq db.
Proof. reflexivity. Qed.

(** The service turns the exception into [None]. *)
Lemma service_create_booking_call_not_Opened now o faults rq db :
  o ≠ Database.Opened →
  BookingService.create_booking_call now o faults rq db = (None, db).
Proof.
  intros Ho. unfold BookingService.create_booking_call, BookingService.create_booking_over.
  destruct (BookingService.get_class_by_id now (req_class_id rq) db) as [fc|]; [|done].
  case_bool_decide; [done|].
  by rewrite (create_booking_call_not_Opened o faults _ _ _ db Ho).
Qed.

(** Every call, in either layer, leaves the store as it was or commits one
    whole booking. *)
Lemma service_create_booking_cases now faults rq db :
  BookingService.create_booking now faults rq db = (None, db) ∨
  ∃ r, classes db !! req_class_id rq = Some r ∧ 0 < available_slots r ∧
       bookings_for (req_class_id rq) (req_client_email rq) db = [] ∧
       is_future_class now (date_time r) = true ∧
       (∀ s, faults s = false) ∧
       (BookingService.create_booking now faults rq db).2 =
         booked (req_class_id rq) (req_client_name rq) (req_client_email rq) r db.
Proof.
  unfold BookingService.create_booking, BookingService.create_booking_over,
    BookingService.get_class_by_id, Database.get_class_by_id.
  destruct (classes db !! req_class_id rq) as [r|] eqn:Hl; simpl; [|by left].
  destruct (is_future_class now (date_time r)) eqn:Hfut; simpl; [|by left].
  case_bool_decide; [by left|].
  destruct (create_booking_cases faults (req_class_id rq) (req_client_name rq)
              (req_client_email rq) db) as [->|(r' & Hl' & Hpos & Hdup & Hf & ->)].
  - by left.
  - right. exists r. assert (r' = r) as -> by congruence.
    split_and!; try done. by case_bool_decide.
Qed.

Lemma service_create_booking_call_cases now o faults rq db :
  BookingService.create_booking_call now o faults rq db = (None, db) ∨
  ∃ r, classes db !! req_class_id rq = Some r ∧ 0 < available_slots r ∧
       bookings_for (req_class_id rq) (req_client_email rq) db = [] ∧
       is_future_class now (date_time r) = true ∧
       o = Database.Opened ∧ (∀ s, faults s = false) ∧
       (BookingService.create_booking_call now o faults rq db).2 =
         booked (req_class_id rq) (req_client_name rq) (req_client_email rq) r db.
Proof.
  destruct (decide (o = Database.Opened)) as [->|Ho].
  - rewrite service_create_booking_call_Opened.
    destruct (service_create_booking_cases now faults rq db)
      as [?|(r & ? & ? & ? & ? & ? & ?)]; [by left|].
    right. by exists r.
  - left. by apply service_create_booking_call_not_Opened.
Qed.

Lemma run_op_cases db o :
  run_op db o = db ∨
  ∃ c n e r, classes db !! c = Some r ∧ 0 < available_slots r ∧
             bookings_for c e db = [] ∧ run_op db o = booked c n e r db.
Proof.
  destruct o as [opn faults c n e|now opn faults rq|now later opn faults rq]; simpl.
  - destruct opn; [|by left|by left]. rewrite create_booking_call_Opened.
    destruct (create_booking_cases faults c n e db) as [->|(r & ? & ? & ? & _ & ->)];
      [by left|]. right. by exists c, n, e, r.
  - destruct (service_create_booking_call_cases now opn faults rq db)
      as [->|(r & ? & ? & ? & _ & _ & _ & ->)]; [by left|].
    right. by exists (req_class_id rq), (req_client_name rq), (req_client_email rq), r.
  - unfold book_class.
    destruct (BookingService.validate_booking_request now rq db) as [[] reason];
      [|by left].
    destruct (service_create_booking_call_cases later opn faults rq db)
      as [->|(r & ? & ? & ? & _ & _ & _ & Hb)]; [by left|].
    right. exists (req_class_id rq), (req_client_name rq), (req_client_email rq), r.
    split_and!; try done. rewrite <- Hb.
    by destruct (BookingService.create_booking_call later opn faults rq db) as [[] ?].
Qed.

Lemma run_snoc ops o db : run (ops ++ [o]) db = run_op (run ops db) o.
Proof. unfold run. by rewrite foldl_app. Qed.

(** A history is a sequence of steps of [reachable]. *)
Lemma reachable_run ops db : reachable db → reachable (run ops db).
Proof.
  intros Hdb. induction ops as [|o ops IH] using rev_ind; [done|].
  rewrite run_snoc. by constructor.
Qed.

(** *** The slot counter along a history *)

Lemma booked_class c n e r db cid r0 :
  classes db !! c = Some r → classes db !! cid = Some r0 →
  classes (booked c n e r db) !! cid =
    Some (if bool_decide (c = cid) then Database.take_slot r0 else r0).
Proof.
  intros Hr Hr0. unfold booked. simpl. case_bool_decide as Hc.
  - subst. rewrite lookup_insert_eq. congruence.
  - by rewrite lookup_insert_ne.
Qed.

Lemma run_op_slots db o cid r :
  classes db !! cid = Some r →
  0 <= available_slots r <= total_slots r →
  ∃ r', classes (run_op db o) !! cid = Some r' ∧
        total_slots r' = total_slots r ∧
        0 <= available_slots r' <= available_slots r.
Proof.
  intros Hr Hb.
  destruct (run_op_cases db o) as [->|(c & n & e & r0 & Hr0 & Hpos & _ & ->)].
  - exists r. split_and!; [done|done|lia|lia].
  - rewrite (booked_class c n e r0 db _ _ Hr0 Hr). eexists. split; [done|].
    case_bool_decide as Hc; simpl; [|lia].
    subst. assert (r0 = r) as -> by congruence. lia.
Qed.

Lemma run_slots ops db cid r :
  classes db !! cid = Some r →
  0 <= available_slots r <= total_slots r →
  ∃ r', classes (run ops db) !! cid = Some r' ∧
        total_slots r' = total_slots r ∧
        0 <= available_slots r' <= available_slots r.
Proof.
  intros Hr Hb. induction ops as [|o ops IH] using rev_ind.
  - exists r. split_and!; [done|done|lia|lia].
  - destruct IH as (r1 & Hr1 & Ht1 & Hb1). rewrite run_snoc.
    destruct (run_op_slots (run ops db) o cid r1 Hr1) as (r2 & Hr2 & Ht2 & Hb2); [lia|].
    exists r2. split_and!; [done|lia|lia|lia].
Qed.

(** *** The rows of a pair along a history *)

Lemma booked_bookings_for c n e r db cid email :
  bookings_for cid email (booked c n e r db) =
  bookings_for cid email db ++
    (if bool_decide (c = cid ∧ e = email)
     then [{| booking_id := Database.next_rowid db; class_id := c; client_name := n;
              client_email := e; booking_date := date_time r |}]
     else []).
Proof.
  unfold bookings_for, booked. simpl. rewrite filter_app. f_equal.
  rewrite filter_cons, filter_nil. simpl.
  case_bool_decide; [by rewrite decide_True|by rewrite decide_False].
Qed.

Lemma run_op_pair db o cid email :
  (length (bookings_for cid email db) ≤ 1)%nat →
  (length (bookings_for cid email (run_op db o)) ≤ 1)%nat.
Proof.
  intros Hle.
  destruct (run_op_cases db o) as [->|(c & n & e & r & _ & _ & Hnone & ->)]; [done|].
  rewrite booked_bookings_for. case_bool_decide as Hc.
  - destruct Hc as [-> ->]. by rewrite Hnone.
  - by rewrite app_nil_r.
Qed.

Lemma run_pair ops db cid email :
  (length (bookings_for cid email db) ≤ 1)%nat →
  (length (bookings_for cid email (run ops db)) ≤ 1)%nat.
Proof.
  intros Hle. induction ops as [|o ops IH] using rev_ind; [done|].
  rewrite run_snoc. by apply run_op_pair.
Qed.

(** *** The booking dates along a history *)

Lemma booked_dates_ok c n e r db :
  classes db !! c = Some r → booking_dates_ok db → booking_dates_ok (booked c n e r db).
Proof.
  intros Hr Hok b Hb. unfold booked in Hb. simpl in Hb.
  apply elem_of_app in Hb as [Hb|Hb].
  - destruct (Hok b Hb) as (r0 & Hr0 & Hd).
    rewrite (booked_class c n e r db _ _ Hr Hr0). eexists. split; [done|].
    rewrite Hd. by case_bool_decide.
  - apply list_elem_of_singleton in Hb as ->. cbn [class_id booking_date].
    rewrite (booked_class c n e r db _ _ Hr Hr). eexists. split; [done|].
    by rewrite bool_decide_true.
Qed.

Lemma reachable_dates_ok db : reachable db → booking_dates_ok db.
Proof.
  induction 1 as [cls|db o _ IH].
  - intros b Hb. simpl in Hb. by apply elem_of_nil in Hb.
  - destruct (run_op_cases db o) as [->|(c & n & e & r & Hr & _ & _ & ->)]; [done|].
    by apply booked_dates_ok.
Qed.

(** *** The clock *)

Lemma instant_now now : instant (get_current_ist_time now) = now.
Proof. unfold instant, get_current_ist_time. simpl. lia. Qed.

Lemma is_future_class_spec now dt :
  is_future_class now dt = true ↔ now < start_time dt.
Proof.
  unfold is_future_class, dt_gt, start_time. rewrite instant_now.
  apply bool_decide_eq_true.
Qed.

Lemma is_future_class_false now dt :
  is_future_class now dt = false ↔ start_time dt <= now.
Proof.
  rewrite <- not_true_iff_false, is_future_class_spec. lia.
Qed.

(** An aware time stamp denotes the same instant for the store and for the
    service; a naive one is IST for the service and UTC for the store. *)
Lemma start_time_aware dt off : tzinfo dt = Some off → start_time dt = instant dt.
Proof.
  intros H. unfold start_time, convert_to_ist, instant. rewrite H. simpl. lia.
Qed.

Lemma start_time_naive dt :
  tzinfo dt = None → start_time dt = instant dt - IST * usec_per_min.
Proof.
  intros H. unfold start_time, convert_to_ist, instant. rewrite H. simpl. lia.
Qed.

Lemma next_rowid_pos db : 0 <= sqlite_sequence db → 0 < Database.next_rowid db.
Proof.
  intros H. unfold Database.next_rowid.
  assert (sqlite_sequence db <= foldr Z.max (sqlite_sequence db) (booking_id <$> bookings db)); [|lia].
  induction (bookings db) as [|b l IH]; [simpl; lia|].
  rewrite fmap_cons. cbn [foldr]. lia.
Qed.

(** ** The invariants of the store *)

(** C1. Along every history of booking attempts that starts in a store where
    a class has [0 <= available_slots <= total_slots], the class keeps its
    [total_slots] and its [available_slots] stays within [0, total_slots]
    and never grows.  A call of the store's [create_booking] that answers a
    booking id found its class with [available_slots > 0] and leaves it with
    exactly one slot less, every other class as it was; a call that answers
    [None] leaves every class as it was. *)
Theorem available_slots_within_bounds (db : store) (cid : Z) (r : class_row) (ops : list op) :
  classes db !! cid = Some r →
  0 <= available_slots r <= total_slots r →
  (∃ r', classes (run ops db) !! cid = Some r' ∧
         total_slots r' = total_slots r ∧
         0 <= available_slots r' <= total_slots r' ∧
         available_slots r' <= available_slots r) ∧
  (∀ faults c n e,
     match Database.create_booking faults c n e db with
     | (Database.Returned (Some _), db') =>
         ∃ r0 r1, classes db !! c = Some r0 ∧ 0 < available_slots r0 ∧
                  classes db' !! c = Some r1 ∧
                  available_slots r1 = available_slots r0 - 1 ∧
                  total_slots r1 = total_slots r0 ∧
                  ∀ j, j ≠ c → classes db' !! j = classes db !! j
     | (_, db') => classes db' = classes db
     end).
Proof.
  intros Hr Hb. split.
  - destruct (run_slots ops db cid r Hr Hb) as (r' & Hr' & Ht & Ha).
    exists r'. split_and!; [done|done|lia|lia|lia].
  - intros faults c n e.
    destruct (create_booking_cases faults c n e db) as [->|(r0 & Hr0 & Hpos & _ & _ & ->)];
      [done|].
    exists r0, (Database.take_slot r0). unfold booked. simpl.
    split_and!; try done.
    + by rewrite lookup_insert_eq.
    + intros j Hj. by rewrite lookup_insert_ne.
Qed.

Lemma available_slots_within_bounds_witness :
  ∃ r', classes (run [DbCreateBooking Database.Opened no_faults 1 "John Doe" "john@example.com";
                      ServiceCreateBooking 0 Database.Opened no_faults john;
                      BookClass 0 0 Database.Opened no_faults john] (seed_data 0)) !! 1 = Some r' ∧
        total_slots r' = 20 ∧
        0 <= available_slots r' <= total_slots r' ∧
        available_slots r' <= 20.
Proof.
  apply (available_slots_within_bounds (seed_data 0) 1
           (sample_class 0 "Yoga" 1 10 "Sarah Johnson" 20)).
  - reflexivity.
  - simpl. lia.
Defined.

(** C2. Along every history of calls that starts in a store with at most one
    booking row for a pair (class id, e-mail address), the store keeps at
    most one row for the pair; and whenever a row for the pair exists, the
    store's [create_booking] for this pair answers [None] and inserts
    nothing. *)
Theorem at_most_one_booking_per_pair (db : store) (cid : Z) (email : string) (ops : list op) :
  (length (bookings_for cid email db) ≤ 1)%nat →
  (length (bookings_for cid email (run ops db)) ≤ 1)%nat ∧
  (∀ db0 faults n,
     bookings_for cid email db0 ≠ [] →
     Database.create_booking faults cid n email db0 = (Database.Returned None, db0)).
Proof.
  intros Hle. split; [by apply run_pair|].
  intros db0 faults n Hex.
  destruct (create_booking_cases faults cid n email db0) as [->|(r & _ & _ & Hnone & _)];
    done.
Qed.

Lemma at_most_one_booking_per_pair_witness :
  (length (bookings_for 1 "john@example.com"
             (run [BookClass 0 0 Database.Opened no_faults john; ServiceCreateBooking 0 Database.Opened no_faults john;
                   DbCreateBooking Database.Opened no_faults 1 "J. Doe" "john@example.com"]
                  (seed_data 0))) ≤ 1)%nat.
Proof.
  apply (at_most_one_booking_per_pair (seed_data 0) 1 "john@example.com").
  simpl. lia.
Defined.

(** ** Failures of the booking path *)

(** Through the service, on an open connection: [None] leaves the store as
    it was, a response means the whole booking is there. *)
Lemma service_create_booking_leaves_no_trace now faults rq db :
  0 <= sqlite_sequence db →
  match BookingService.create_booking now faults rq db with
  | (None, db') => db' = db
  | (Some resp, db') =>
      ∃ r, classes db !! req_class_id rq = Some r ∧
           db' = booked (req_class_id rq) (req_client_name rq) (req_client_email rq) r db
  end.
Proof.
  intros Hseq.
  unfold BookingService.create_booking, BookingService.create_booking_over,
    BookingService.get_class_by_id, Database.get_class_by_id.
  destruct (classes db !! req_class_id rq) as [r|] eqn:Hl; simpl; [|done].
  destruct (is_future_class now (date_time r)); simpl; [|done].
  case_bool_decide; [done|].
  destruct (create_booking_cases faults (req_class_id rq) (req_client_name rq)
              (req_client_email rq) db) as [->|(r' & Hl' & _ & _ & _ & ->)]; [done|].
  case_bool_decide as Hz.
  - pose proof (next_rowid_pos db Hseq). lia.
  - exists r'. split; [congruence|done].
Qed.

(** C3, as amended.  The store's [create_booking] raises exactly when its
    connection or its cursor cannot be opened, which is tried before the
    [try]; the store is then as it was.  Once they are open it returns: it
    answers [None], the store exactly as before the call, whenever the class
    is not found, the class has no slot left, a booking for the pair exists,
    or some statement of the unit hits a storage fault; when it answers a
    booking id none of these happened and the whole booking is there, the
    new row and the decremented counter.  The service's [create_booking],
    the caller, never raises: it turns the exception into [None], so that it
    answers [None] with the store unchanged on every failure, and a response
    only when the whole booking is there. *)
Theorem create_booking_fails_without_trace
    (o : Database.opening) (faults : Database.stmt → bool) (c : Z) (n e : string)
    (db : store) :
  ((Database.create_booking_call o faults c n e db).1 = Database.Raised ↔
   o ≠ Database.Opened) ∧
  match Database.create_booking_call o faults c n e db with
  | (Database.Returned (Some bid), db') =>
      o = Database.Opened ∧ (∀ s, faults s = false) ∧
      bookings_for c e db = [] ∧
      ∃ r, classes db !! c = Some r ∧ 0 < available_slots r ∧
           bid = Database.next_rowid db ∧ db' = booked c n e r db
  | (_, db') => db' = db
  end ∧
  (o = Database.Opened →
   (classes db !! c = None ∨
    (∃ r, classes db !! c = Some r ∧ available_slots r <= 0) ∨
    bookings_for c e db ≠ [] ∨
    (∃ s, faults s = true)) →
   Database.create_booking_call o faults c n e db = (Database.Returned None, db)) ∧
  (∀ now rq,
     0 <= sqlite_sequence db →
     (o ≠ Database.Opened →
      BookingService.create_booking_call now o faults rq db = (None, db)) ∧
     match BookingService.create_booking_call now o faults rq db with
     | (None, db') => db' = db
     | (Some resp, db') =>
         o = Database.Opened ∧ (∀ s, faults s = false) ∧
         ∃ r, classes db !! req_class_id rq = Some r ∧
              db' = booked (req_class_id rq) (req_client_name rq) (req_client_email rq) r db
     end).
Proof.
  split_and!.
  - destruct o; simpl; [|done|done].
    destruct (create_booking_cases faults c n e db) as [->|(r & _ & _ & _ & _ & ->)];
      simpl; split; done.
  - destruct o; simpl; [|done|done].
    destruct (create_booking_cases faults c n e db)
      as [->|(r & Hr & Hpos & Hnone & Hf & ->)]; [done|].
    split_and!; [done|done|done|]. by exists r.
  - intros -> Hcause. rewrite create_booking_call_Opened.
    destruct (create_booking_cases faults c n e db)
      as [Heq|(r & Hr & Hpos & Hnone & Hf & Heq)]; [done|].
    destruct Hcause as [Hn|[(r0 & Hr0 & Hle)|[Hdup|[s Hs]]]].
    + congruence.
    + assert (r0 = r) by congruence. subst. lia.
    + done.
    + rewrite Hf in Hs. done.
  - intros now rq Hseq. split.
    + apply service_create_booking_call_not_Opened.
    + destruct (decide (o = Database.Opened)) as [->|Ho].
      * rewrite service_create_booking_call_Opened.
        pose proof (service_create_booking_leaves_no_trace now faults rq db Hseq) as Hs.
        destruct (BookingService.create_booking now faults rq db) as [[resp|] db'] eqn:Hc;
          [|done].
        destruct (service_create_booking_cases now faults rq db)
          as [Heq|(r & _ & _ & _ & _ & Hf & _)]; [congruence|].
        by split_and!.
      * by rewrite (service_create_booking_call_not_Opened now o faults rq db Ho).
Qed.

(** C3 as first stated fails: when the database file cannot be opened, the
    call for class 1 of the seeded store raises instead of answering
    [None]. *)
Lemma create_booking_raises_when_connect_fails :
  (Database.create_booking_call Database.ConnectRaises no_faults
     1 "John Doe" "john@example.com" (seed_data 0)).1 = Database.Raised ∧
  (Database.create_booking_call Database.ConnectRaises no_faults
     1 "John Doe" "john@example.com" (seed_data 0)).1 ≠ Database.Returned None.
Proof. split; [reflexivity|discriminate]. Qed.

(** ** Where the checks run *)

(** C4, as amended.  The unit of the store runs three checks and never
    reads the clock: it commits a booking exactly when no statement fails,
    the class exists with [available_slots > 0], and no booking exists for
    the pair.  The start time is checked by the service, before the unit is
    entered: the service answers a booking only for a class that is in the
    future at its clock reading, and passes the three checks of the unit. *)
Theorem unit_checks_and_service_checks
    (now : Z) (faults : Database.stmt → bool) (rq : BookingRequest) (db : store) :
  ((∃ bid, (Database.create_booking faults (req_class_id rq) (req_client_name rq)
              (req_client_email rq) db).1 = Database.Returned (Some bid)) ↔
   (∀ s, faults s = false) ∧
   (∃ r, classes db !! req_class_id rq = Some r ∧ 0 < available_slots r) ∧
   bookings_for (req_class_id rq) (req_client_email rq) db = []) ∧
  ((∃ resp, (BookingService.create_booking now faults rq db).1 = Some resp) →
   ∃ r, classes db !! req_class_id rq = Some r ∧
        now < start_time (date_time r) ∧
        0 < available_slots r ∧
        bookings_for (req_class_id rq) (req_client_email rq) db = [] ∧
        ∀ s, faults s = false).
Proof.
  split.
  - destruct (create_booking_cases faults (req_class_id rq) (req_client_name rq)
                (req_client_email rq) db)
      as [Heq|(r & Hr & Hpos & Hnone & Hf & Heq)]; rewrite Heq; simpl.
    + split; [by intros [bid [=]]|].
      intros (Hf & (r & Hr & Hpos) & Hnone). exfalso.
      revert Heq. rewrite create_booking_unfold, !Hf.
      apply select_booking_None in Hnone. rewrite Hnone.
      assert (Database.select_class (req_class_id rq) db = Some r) as ->
        by by apply select_class_Some.
      done.
    + split; [|by eexists]. intros _. split_and!; [done|by exists r|done].
  - intros [resp Hresp].
    destruct (service_create_booking_cases now faults rq db)
      as [Heq|(r & Hr & Hpos & Hnone & Hfut & Hf & _)].
    + rewrite Heq in Hresp. done.
    + exists r. apply is_future_class_spec in Hfut. done.
Qed.

(** C4 as first stated fails: thirty days after the seeding, class 1
    started long ago, and the unit of the store still books it. *)
Lemma unit_books_a_past_class :
  classes (seed_data 0) !! 1 = Some (sample_class 0 "Yoga" 1 10 "Sarah Johnson" 20) ∧
  is_future_class (timedelta 30 0) (date_time (sample_class 0 "Yoga" 1 10 "Sarah Johnson" 20))
    = false ∧
  Database.create_booking no_faults 1 "John Doe" "john@example.com" (seed_data 0) =
    (Database.Returned (Some 1),
     booked 1 "John Doe" "john@example.com"
            (sample_class 0 "Yoga" 1 10 "Sarah Johnson" 20) (seed_data 0)).
Proof.
  split_and!; [reflexivity|reflexivity|].
  rewrite create_booking_unfold. reflexivity.
Qed.

(** C5. A class that has started (its start time is not strictly after the
    clock reading) cannot be booked, whatever its free slots: validation
    answers [(False, "Class not found or not available")], creation answers
    [None] and leaves the store as it was, and so does the [/book] handler,
    whatever its second clock reading and the storage faults. *)
Theorem past_class_is_rejected (now : Z) (rq : BookingRequest) (db : store) (r : class_row) :
  classes db !! req_class_id rq = Some r →
  start_time (date_time r) <= now →
  BookingService.validate_booking_request now rq db =
    (false, "Class not found or not available"%string) ∧
  (∀ faults, BookingService.create_booking now faults rq db = (None, db)) ∧
  (∀ later o faults, book_class now later o faults rq db =
                       (inl "Class not found or not available"%string, db)).
Proof.
  intros Hr Hpast. apply is_future_class_false in Hpast.
  assert (BookingService.get_class_by_id now (req_class_id rq) db = None) as Hget.
  { unfold BookingService.get_class_by_id, Database.get_class_by_id.
    rewrite Hr. simpl. by rewrite Hpast. }
  assert (BookingService.validate_booking_request now rq db =
            (false, "Class not found or not available"%string)) as Hval.
  { unfold BookingService.validate_booking_request. by rewrite Hget. }
  split_and!; [done| |].
  - intros faults.
    unfold BookingService.create_booking, BookingService.create_booking_over.
    by rewrite Hget.
  - intros later o faults. unfold book_class. by rewrite Hval.
Qed.

Lemma past_class_is_rejected_witness :
  BookingService.validate_booking_request (timedelta 30 0) john (seed_data 0) =
    (false, "Class not found or not available"%string) ∧
  (∀ faults, BookingService.create_booking (timedelta 30 0) faults john (seed_data 0)
             = (None, seed_data 0)) ∧
  (∀ later o faults, book_class (timedelta 30 0) later o faults john (seed_data 0) =
                       (inl "Class not found or not available"%string, seed_data 0)).
Proof.
  apply (past_class_is_rejected (timedelta 30 0) john (seed_data 0)
           (sample_class 0 "Yoga" 1 10 "Sarah Johnson" 20)).
  - reflexivity.
  - vm_compute. discriminate.
Defined.

(** ** The listing *)

Global Instance text_le_total : Total text_le.
Proof.
  intros a b. unfold text_le.
  destruct (tzinfo a) as [oa|], (tzinfo b) as [ob|]; simpl;
    repeat case_bool_decide; simpl; lia.
Qed.

Global Instance text_le_trans : Transitive text_le.
Proof.
  intros a b c. unfold text_le.
  destruct (tzinfo a) as [oa|], (tzinfo b) as [ob|], (tzinfo c) as [oc|]; simpl;
    repeat case_bool_decide; simpl; lia.
Qed.

Global Instance class_order_total : Total class_order.
Proof. intros c1 c2. apply text_le_total. Qed.

Global Instance class_order_trans : Transitive class_order.
Proof. intros c1 c2 c3. apply text_le_trans. Qed.

Global Instance to_class_inj : Inj (=) (=) Database.to_class.
Proof. intros [i r] [j q] [=]. simpl in *. by subst. Qed.

Lemma StronglySorted_filter {A} (R : relation A) (P : A → Prop) `{∀ x, Decision (P x)} l :
  StronglySorted R l → StronglySorted R (filter P l).
Proof.
  induction 1 as [|x l Hl IH Hx]; [constructor|].
  rewrite filter_cons. case_decide; [|done].
  constructor; [done|].
  apply Forall_forall. intros y Hy. apply list_elem_of_filter in Hy as [_ Hy].
  rewrite Forall_forall in Hx. by apply Hx.
Qed.

(** A sorted list stays sorted for a coarser order that agrees on its
    elements. *)
Lemma StronglySorted_weaken {A} (R R' : relation A) (P : A → Prop) l :
  (∀ x y, P x → P y → R x y → R' x y) →
  Forall P l → StronglySorted R l → StronglySorted R' l.
Proof.
  intros HR HP Hs. induction Hs as [|x l Hl IH Hx]; [constructor|].
  apply Forall_cons in HP as [HPx HPl].
  constructor; [by apply IH|].
  rewrite Forall_forall in *. intros y Hy. apply HR; auto.
Qed.

Lemma db_get_all_classes_elem now db c :
  c ∈ Database.get_all_classes now db ↔
  classes db !! fc_id c = Some (fc_row c) ∧
  sql_datetime_now now < sql_datetime (date_time (fc_row c)).
Proof.
  unfold Database.get_all_classes.
  rewrite merge_sort_Permutation, list_elem_of_filter, list_elem_of_fmap.
  split.
  - intros (Hq & [i r] & -> & Hin). apply elem_of_map_to_list in Hin. done.
  - intros (Hl & Hq). split; [done|]. exists (fc_id c, fc_row c).
    split; [by destruct c|]. by apply elem_of_map_to_list.
Qed.

Lemma get_all_classes_elem now db c :
  c ∈ BookingService.get_all_classes now db ↔
  classes db !! fc_id c = Some (fc_row c) ∧ upcoming now (fc_row c).
Proof.
  unfold BookingService.get_all_classes, upcoming.
  rewrite list_elem_of_filter, db_get_all_classes_elem, Is_true_true, is_future_class_spec.
  tauto.
Qed.

Lemma db_get_all_classes_sorted now db :
  StronglySorted class_order (Database.get_all_classes now db).
Proof. apply StronglySorted_merge_sort; apply _. Qed.

Lemma get_all_classes_NoDup now db : NoDup (BookingService.get_all_classes now db).
Proof.
  unfold BookingService.get_all_classes, Database.get_all_classes.
  apply NoDup_filter. rewrite merge_sort_Permutation.
  apply NoDup_filter, NoDup_fmap_2; [apply _|]. apply NoDup_map_to_list.
Qed.

(** What the listing returns.  It holds each class of the store once, and
    exactly those that pass both filters: the whole second of the start
    time, as the query renders it, is later than the whole second of the
    clock reading, and the start time is strictly after the clock reading.
    So no listed class has started.  The listing is sorted by the stored text
    of [date_time]; when all classes carry the same UTC offset, as the
    seeded ones do, that is ascending start time. *)
Lemma get_all_classes_spec (now : Z) (db : store) :
  (∀ c, c ∈ BookingService.get_all_classes now db ↔
        classes db !! fc_id c = Some (fc_row c) ∧
        sql_datetime_now now < sql_datetime (date_time (fc_row c)) ∧
        now < start_time (date_time (fc_row c))) ∧
  NoDup (BookingService.get_all_classes now db) ∧
  (∀ c, c ∈ BookingService.get_all_classes now db →
        ¬ start_time (date_time (fc_row c)) <= now) ∧
  StronglySorted class_order (BookingService.get_all_classes now db) ∧
  (∀ off, (∀ i r, classes db !! i = Some r → tzinfo (date_time r) = Some off) →
          StronglySorted start_order (BookingService.get_all_classes now db)).
Proof.
  assert (StronglySorted class_order (BookingService.get_all_classes now db)) as Hsorted.
  { apply StronglySorted_filter, db_get_all_classes_sorted. }
  split_and!.
  - intros c. apply get_all_classes_elem.
  - apply get_all_classes_NoDup.
  - intros c Hc. apply get_all_classes_elem in Hc as (_ & _ & Hfut). lia.
  - done.
  - intros off Hoff.
    apply (StronglySorted_weaken class_order start_order
             (λ c, tzinfo (date_time (fc_row c)) = Some off)); [| |done].
    + intros x y Hx Hy. unfold class_order, start_order, text_le.
      rewrite (start_time_aware _ _ Hx), (start_time_aware _ _ Hy).
      unfold instant. rewrite Hx, Hy. simpl. lia.
    + apply Forall_forall. intros c Hc.
      apply get_all_classes_elem in Hc as (Hl & _). by apply (Hoff _ _ Hl).
Qed.

(** C6.  The listing misses a class that has not started.  In the store
    seeded half a second past a full second, class 1 starts 34 hours later,
    at second 122400.5.  At second 122400.2 its start time is strictly after
    the clock, and [get_class_by_id] hands it out, but the listing holds the
    classes 2 to 5 only: for the query, start and clock fall in the same
    whole second.  One second earlier the listing holds all five, class 1
    first. *)
Theorem listing_omits_class_of_the_current_second :
  classes (seed_data 500000) !! 1 =
    Some (sample_class 500000 "Yoga" 1 10 "Sarah Johnson" 20) ∧
  start_time (date_time (sample_class 500000 "Yoga" 1 10 "Sarah Johnson" 20))
    = 122400500000 ∧
  122400200000 < start_time (date_time (sample_class 500000 "Yoga" 1 10 "Sarah Johnson" 20)) ∧
  fc_id <$> BookingService.get_all_classes 122400200000 (seed_data 500000) = [2; 3; 4; 5] ∧
  BookingService.get_class_by_id 122400200000 1 (seed_data 500000) =
    Some {| fc_id := 1; fc_row := sample_class 500000 "Yoga" 1 10 "Sarah Johnson" 20 |} ∧
  fc_id <$> BookingService.get_all_classes 122399200000 (seed_data 500000) = [1; 2; 3; 4; 5].
Proof. split_and!; reflexivity. Qed.

(** ** The statistics *)

Lemma foldl_add a l : foldl Z.add a l = a + foldr Z.add 0 l.
Proof.
  revert a. induction l as [|x l IH]; intros a; simpl; [lia|]. rewrite IH. lia.
Qed.

Lemma py_sum_foldr l : py_sum l = foldr Z.add 0 l.
Proof. unfold py_sum. rewrite foldl_add. lia. Qed.

Lemma foldr_add_Permutation l1 l2 : l1 ≡ₚ l2 → foldr Z.add 0 l1 = foldr Z.add 0 l2.
Proof. induction 1; simpl; lia. Qed.

Lemma filter_fmap_comm {A B} (f : A → B) (P : B → Prop) `{∀ x, Decision (P x)} (l : list A) :
  filter P (f <$> l) = f <$> filter (λ x, P (f x)) l.
Proof.
  induction l as [|x l IH]; [done|].
  rewrite fmap_cons, !filter_cons. case_decide; [|done].
  by rewrite fmap_cons, IH.
Qed.

(** The listing is a rearrangement of the rows that pass both filters. *)
Lemma get_all_classes_rows now db :
  BookingService.get_all_classes now db ≡ₚ Database.to_class <$> upcoming_rows now db.
Proof.
  unfold BookingService.get_all_classes, Database.get_all_classes, upcoming_rows.
  rewrite merge_sort_Permutation, list_filter_filter, filter_fmap_comm.
  rewrite (list_filter_iff _ (λ kv, upcoming now kv.2)); [done|].
  intros [i r]. unfold upcoming. simpl.
  rewrite Is_true_true, is_future_class_spec. tauto.
Qed.

Lemma listed_column_sum now db (col : class_row → Z) :
  py_sum ((λ c, col (fc_row c)) <$> BookingService.get_all_classes now db) =
  column_sum col (upcoming_rows now db).
Proof.
  rewrite py_sum_foldr. unfold column_sum.
  rewrite (foldr_add_Permutation _ ((λ c, col (fc_row c)) <$>
             (Database.to_class <$> upcoming_rows now db))).
  - by rewrite <- list_fmap_compose.
  - by rewrite get_all_classes_rows.
Qed.

Lemma listed_length now db :
  length (BookingService.get_all_classes now db) = length (upcoming_rows now db).
Proof. by rewrite get_all_classes_rows, length_fmap. Qed.

Lemma column_sum_sub (f g : class_row → Z) rows :
  column_sum f rows - column_sum g rows = column_sum (λ r, f r - g r) rows.
Proof.
  unfold column_sum. induction rows as [|kv rows IH]; [done|].
  rewrite !fmap_cons. cbn [foldr]. lia.
Qed.

(** C7. The statistics count the listed classes and add up their
    [total_slots] and their [available_slots]; [booked_slots] is the
    difference; [booking_percentage] is
    [round(booked_slots / total_slots * 100, 2)], in binary64 arithmetic,
    when [total_slots > 0], and the integer 0 otherwise.  On the store with
    two classes of 20 and 15 slots, after 5 and 15 bookings, they are 2
    classes, 35 slots, 15 of them free, 20 booked, and 57.14 percent. *)
Theorem statistics_of_the_listed_classes (now : Z) (db : store) :
  let listed := BookingService.get_all_classes now db in
  let stats := BookingService.get_booking_statistics now db in
  total_classes stats = Z.of_nat (length listed) ∧
  stat_total_slots stats = foldr Z.add 0 ((λ c, total_slots (fc_row c)) <$> listed) ∧
  stat_available_slots stats = foldr Z.add 0 ((λ c, available_slots (fc_row c)) <$> listed) ∧
  booked_slots stats = stat_total_slots stats - stat_available_slots stats ∧
  booking_percentage stats =
    (if bool_decide (0 < stat_total_slots stats)
     then PyFloat (py_round2 (float_mul_int
                     (int_truediv (booked_slots stats) (stat_total_slots stats)) 100))
     else PyInt 0) ∧
  (stat_total_slots stats = 0 → booking_percentage stats = PyInt 0) ∧
  BookingService.get_booking_statistics 0 (two_classes_booked 0) =
    {| total_classes := 2; stat_total_slots := 35; stat_available_slots := 15;
       booked_slots := 20; booking_percentage := PyFloat (decimal2 5714) |}.
Proof.
  intros listed stats. split_and!.
  - done.
  - unfold stats, BookingService.get_booking_statistics. simpl. apply py_sum_foldr.
  - unfold stats, BookingService.get_booking_statistics. simpl. apply py_sum_foldr.
  - done.
  - done.
  - unfold stats, BookingService.get_booking_statistics. simpl. intros ->. done.
  - vm_compute. reflexivity.
Qed.

(** The float of the example is the binary64 next to 57.14: it lies within
    half a unit in the last place, [2 ^ -48], of 5714/100. *)
Example decimal2_5714 :
  decimal2 5714 = S754_finite false 8041740084623442 (-47) ∧
  Z.abs (8041740084623442 * 100 - 5714 * 2 ^ 47) * 2 <= 100.
Proof. split; [reflexivity|]. vm_compute. discriminate. Qed.

Lemma upcoming_mono now now' r : now <= now' → upcoming now' r → upcoming now r.
Proof.
  unfold upcoming, sql_datetime_now, usec_per_sec. intros Hle [Hq Hf].
  assert (now / 1000000 <= now' / 1000000) by (apply Z.div_le_mono; lia).
  split; lia.
Qed.

Lemma upcoming_rows_elem now db i r :
  (i, r) ∈ upcoming_rows now db ↔ classes db !! i = Some r ∧ upcoming now r.
Proof.
  unfold upcoming_rows. rewrite list_elem_of_filter, elem_of_map_to_list. simpl. tauto.
Qed.

Lemma upcoming_rows_later now now' db :
  now <= now' →
  upcoming_rows now' db = filter (λ kv, upcoming now' kv.2) (upcoming_rows now db).
Proof.
  intros Hle. unfold upcoming_rows. rewrite list_filter_filter.
  apply list_filter_iff. intros [i r]. simpl.
  split; [|tauto]. intros Hup. split; [done|]. by apply (upcoming_mono now now').
Qed.

(** What the statistics range over: the count and the three sums are taken
    over the rows of table [classes] that the listing keeps, and the
    percentage is computed from these sums.  Each of these rows starts
    strictly after the clock reading, and a class whose start time has
    passed is not among them.  So the statistics change with the clock
    alone: once the start time of a counted class has passed, the same store
    reports fewer classes. *)
Lemma statistics_over_listed_rows (now : Z) (db : store) :
  let stats := BookingService.get_booking_statistics now db in
  let rows := upcoming_rows now db in
  total_classes stats = Z.of_nat (length rows) ∧
  stat_total_slots stats = column_sum total_slots rows ∧
  stat_available_slots stats = column_sum available_slots rows ∧
  booked_slots stats = column_sum (λ r, total_slots r - available_slots r) rows ∧
  booking_percentage stats =
    (if bool_decide (0 < column_sum total_slots rows)
     then PyFloat (py_round2 (float_mul_int
            (int_truediv (column_sum (λ r, total_slots r - available_slots r) rows)
                         (column_sum total_slots rows)) 100))
     else PyInt 0) ∧
  (∀ i r, (i, r) ∈ rows → classes db !! i = Some r ∧ now < start_time (date_time r)) ∧
  (∀ i r, classes db !! i = Some r → start_time (date_time r) <= now → (i, r) ∉ rows) ∧
  (∀ now' i r, (i, r) ∈ rows → start_time (date_time r) <= now' →
     total_classes (BookingService.get_booking_statistics now' db) < total_classes stats ∧
     BookingService.get_booking_statistics now' db ≠ stats).
Proof.
  intros stats rows.
  assert (stat_total_slots stats = column_sum total_slots rows) as Htot
    by apply (listed_column_sum now db total_slots).
  assert (stat_available_slots stats = column_sum available_slots rows) as Hav
    by apply (listed_column_sum now db available_slots).
  assert (booked_slots stats = column_sum (λ r, total_slots r - available_slots r) rows)
    as Hbooked.
  { rewrite <- column_sum_sub, <- Htot, <- Hav. done. }
  assert (∀ t, total_classes (BookingService.get_booking_statistics t db) =
               Z.of_nat (length (upcoming_rows t db))) as Hcount.
  { intros t. unfold BookingService.get_booking_statistics. simpl.
    by rewrite listed_length. }
  split_and!.
  - apply Hcount.
  - done.
  - done.
  - done.
  - unfold stats, BookingService.get_booking_statistics. cbn [booking_percentage].
    rewrite !listed_column_sum, column_sum_sub. done.
  - intros i r Hin. apply upcoming_rows_elem in Hin as (Hl & _ & Hfut). done.
  - intros i r Hl Hpast Hin. apply upcoming_rows_elem in Hin as (_ & _ & Hfut). lia.
  - intros now' i r Hin Hpast.
    assert (total_classes (BookingService.get_booking_statistics now' db)
            < total_classes stats) as Hlt.
    { unfold stats. rewrite !Hcount.
      pose proof Hin as Hin'. apply upcoming_rows_elem in Hin' as (_ & _ & Hfut).
      rewrite (upcoming_rows_later now now' db) by lia.
      apply inj_lt. apply (length_filter_lt _ _ (i, r)); [done|].
      unfold upcoming. simpl. lia. }
    split; [done|]. intros Heq. rewrite Heq in Hlt. lia.
Qed.

Lemma filter_iff_elem {A} (P Q : A → Prop) `{∀ x, Decision (P x)} `{∀ x, Decision (Q x)}
    (l : list A) :
  (∀ x, x ∈ l → P x ↔ Q x) → filter P l = filter Q l.
Proof.
  induction l as [|x l IH]; intros Hiff; [done|].
  rewrite !filter_cons.
  assert (filter P l = filter Q l) as ->
    by (apply IH; intros y Hy; apply Hiff; by right).
  assert (P x ↔ Q x) as Hx by (apply Hiff; left).
  destruct (decide (P x)), (decide (Q x)); tauto.
Qed.

(** The rows the listing keeps are among the rows that start after the clock
    reading, and they are all of them when the query keeps every such row,
    that is, when no class starts within the current second. *)
Lemma upcoming_rows_future_rows now db :
  (∀ kv, kv ∈ upcoming_rows now db → kv ∈ future_rows now db) ∧
  ((∀ i r, classes db !! i = Some r → now < start_time (date_time r) →
           sql_datetime_now now < sql_datetime (date_time r)) →
   upcoming_rows now db = future_rows now db).
Proof.
  split.
  - intros [i r] Hin. apply upcoming_rows_elem in Hin as (Hl & _ & Hfut).
    unfold future_rows. rewrite list_elem_of_filter, elem_of_map_to_list. done.
  - intros Hsql. unfold upcoming_rows, future_rows.
    apply filter_iff_elem. intros [i r] Hin. unfold upcoming. simpl.
    apply elem_of_map_to_list in Hin. split; [tauto|]. intros Hfut.
    split; [|done]. by apply (Hsql i r).
Qed.

(** C10.  The statistics miss a class that has not started.  In the store
    seeded half a second past a full second, all five classes start
    strictly after second 122400.2, and their slots add up to 75, all of
    them free.  The statistics at that clock reading count 4 classes and 55
    slots: class 1, which starts at second 122400.5, is left out, because
    the query of the listing compares whole seconds.  One second earlier the
    statistics count all five. *)
Theorem statistics_omit_class_of_the_current_second :
  (∀ i r, classes (seed_data 500000) !! i = Some r →
          (i, r) ∈ future_rows 122400200000 (seed_data 500000)) ∧
  Z.of_nat (length (future_rows 122400200000 (seed_data 500000))) = 5 ∧
  column_sum total_slots (future_rows 122400200000 (seed_data 500000)) = 75 ∧
  column_sum available_slots (future_rows 122400200000 (seed_data 500000)) = 75 ∧
  BookingService.get_booking_statistics 122400200000 (seed_data 500000) =
    {| total_classes := 4; stat_total_slots := 55; stat_available_slots := 55;
       booked_slots := 0; booking_percentage := PyFloat (S754_zero false) |} ∧
  BookingService.get_booking_statistics 122399200000 (seed_data 500000) =
    {| total_classes := 5; stat_total_slots := 75; stat_available_slots := 75;
       booked_slots := 0; booking_percentage := PyFloat (S754_zero false) |}.
Proof.
  split_and!; try (vm_compute; reflexivity).
  intros i r Hl. unfold future_rows.
  rewrite list_elem_of_filter, elem_of_map_to_list. split; [|done].
  revert Hl. unfold seed_data. cbn [classes snd].
  rewrite !lookup_insert_Some, lookup_empty.
  intros [[_ <-]|[_ [[_ <-]|[_ [[_ <-]|[_ [[_ <-]|[_ [[_ <-]|[_ ?]]]]]]]]]];
    [vm_compute; reflexivity..|done].
Qed.

(** ** Letter case of addresses *)

Ltac ascii_cases c :=
  destruct c as [[] [] [] [] [] [] [] []]; vm_compute; reflexivity.

Lemma lower_upper_char c : lower_char (upper_char c) = lower_char c.
Proof. ascii_cases c. Qed.

Lemma lower_lower_char c : lower_char (lower_char c) = lower_char c.
Proof. ascii_cases c. Qed.

Lemma lower_upper s : lower (upper s) = lower s.
Proof.
  unfold lower, upper. induction s as [|c s IH]; [done|].
  simpl. by rewrite lower_upper_char, IH.
Qed.

Lemma lower_lower s : lower (lower s) = lower s.
Proof.
  unfold lower. induction s as [|c s IH]; [done|].
  simpl. by rewrite lower_lower_char, IH.
Qed.

Lemma respects_deriv f r c : respects f r → respects f (deriv c r).
Proof.
  induction r as [| |p|r1 IH1 r2 IH2|r1 IH1 r2 IH2|r1 IH1]; simpl; try done.
  - intros _. by destruct (p c).
  - intros [H1 H2]. destruct (nullable r1); simpl; auto.
  - intros [H1 H2]. auto.
  - intros H1. auto.
Qed.

Lemma deriv_respects f r c : respects f r → deriv (f c) r = deriv c r.
Proof.
  induction r as [| |p|r1 IH1 r2 IH2|r1 IH1 r2 IH2|r1 IH1]; simpl; try done.
  - intros Hp. by rewrite Hp.
  - intros [H1 H2]. by rewrite IH1, IH2.
  - intros [H1 H2]. by rewrite IH1, IH2.
  - intros H1. by rewrite IH1.
Qed.

Lemma fullmatch_respects f r s :
  respects f r → fullmatch r (map_string f s) = fullmatch r s.
Proof.
  revert r. induction s as [|c s IH]; intros r Hr; [done|].
  simpl. rewrite (deriv_respects f r c Hr). apply IH. by apply respects_deriv.
Qed.

Lemma email_pattern_upper :
  respects upper_char (Seq email_pattern (Alt Eps (Lit newline))).
Proof. simpl. split_and!; try done; intros c; ascii_cases c. Qed.

Lemma email_pattern_lower :
  respects lower_char (Seq email_pattern (Alt Eps (Lit newline))).
Proof. simpl. split_and!; try done; intros c; ascii_cases c. Qed.

(** An address and its two case forms are accepted together, and normalise
    to the same address. *)
Lemma validate_client_email_upper e :
  validate_client_email (upper e) = validate_client_email e.
Proof.
  unfold validate_client_email, re_match_email, upper.
  rewrite (fullmatch_respects _ _ _ email_pattern_upper).
  fold (upper e). by rewrite lower_upper.
Qed.

Lemma validate_client_email_lower e :
  validate_client_email (lower e) = validate_client_email e.
Proof.
  unfold validate_client_email, re_match_email. unfold lower at 1.
  rewrite (fullmatch_respects _ _ _ email_pattern_lower).
  by rewrite lower_lower.
Qed.

(** ** The duplicate checks *)

Lemma dt_eq_refl d : dt_eq d d = true.
Proof. unfold dt_eq. destruct (tzinfo d); by apply bool_decide_eq_true. Qed.

Lemma get_bookings_by_email_elem email db h :
  h ∈ Database.get_bookings_by_email email db ↔
  ∃ b r, b ∈ bookings db ∧ client_email b = email ∧
         classes db !! class_id b = Some r ∧ h = Database.join_row b r.
Proof.
  unfold Database.get_bookings_by_email.
  rewrite merge_sort_Permutation, list_elem_of_omap. split.
  - intros (b & Hb & Hj). apply list_elem_of_filter in Hb as [He Hb].
    destruct (classes db !! class_id b) as [r|] eqn:Hr; [|done].
    injection Hj as <-. by exists b, r.
  - intros (b & r & Hb & He & Hr & ->). exists b.
    split; [by apply list_elem_of_filter|]. by rewrite Hr.
Qed.

Lemma already_booked_true fc l :
  BookingService.already_booked fc l = true ↔
  ∃ h, h ∈ l ∧ class_name h = name (fc_row fc) ∧
       dt_eq (bh_booking_date h) (date_time (fc_row fc)) = true.
Proof.
  unfold BookingService.already_booked. rewrite existsb_exists. split.
  - intros (h & Hin & Hh). apply andb_true_iff in Hh as [Hn Hd].
    apply bool_decide_eq_true in Hn. exists h. by rewrite list_elem_of_In.
  - intros (h & Hin & Hn & Hd). exists h. rewrite <- list_elem_of_In.
    split; [done|]. apply andb_true_iff. by rewrite bool_decide_eq_true.
Qed.

Lemma select_booking_is_Some c e db :
  is_Some (Database.select_booking c e db) ↔
  ∃ b, b ∈ bookings db ∧ class_id b = c ∧ client_email b = e.
Proof.
  unfold Database.select_booking. rewrite head_is_Some. split.
  - intros Hne. destruct (filter _ (bookings db)) as [|b l] eqn:Hf; [done|].
    assert (b ∈ filter (λ b, class_id b = c ∧ client_email b = e) (bookings db)) as Hb
      by (rewrite Hf; left).
    apply list_elem_of_filter in Hb as [[? ?] ?]. by exists b.
  - intros (b & Hb & Hc & He) Hnil.
    assert (b ∈ filter (λ b, class_id b = c ∧ client_email b = e) (bookings db)) as Hin
      by by apply list_elem_of_filter.
    rewrite Hnil in Hin. by apply elem_of_nil in Hin.
Qed.

(** The loop of the validation finds what the query of the store finds. *)
Lemma duplicate_checks_agree_on fc e db :
  booking_dates_ok db → unique_name_time db →
  classes db !! fc_id fc = Some (fc_row fc) →
  BookingService.already_booked fc (BookingService.get_bookings_by_email e db) = true ↔
  is_Some (Database.select_booking (fc_id fc) e db).
Proof.
  intros Hok Huniq Hfc.
  rewrite already_booked_true, select_booking_is_Some.
  unfold BookingService.get_bookings_by_email. split.
  - intros (h & Hin & Hn & Hd).
    apply get_bookings_by_email_elem in Hin as (b & r & Hb & He & Hr & ->).
    simpl in Hn, Hd. exists b. split_and!; [done| |done].
    destruct (Hok b Hb) as (r' & Hr' & Hdate).
    assert (r' = r) as -> by congruence. rewrite Hdate in Hd.
    by apply (Huniq _ _ _ _ Hr Hfc).
  - intros (b & Hb & Hc & He).
    destruct (Hok b Hb) as (r & Hr & Hdate).
    assert (r = fc_row fc) as -> by congruence.
    exists (Database.join_row b (fc_row fc)). split_and!.
    + apply get_bookings_by_email_elem. exists b, (fc_row fc).
      rewrite Hc. done.
    + done.
    + simpl. rewrite Hdate. apply dt_eq_refl.
Qed.

(** C9. In every store the system can be in where no two classes share
    both name and start time, and for every request: when the class of the
    request exists, the duplicate check of the validation (the loop over the
    client's bookings, by class name and start time) answers 'duplicate'
    exactly when the query of the store finds a booking for the class id and
    the address; so, for a class that is in the future and has free slots,
    validation answers ["You have already booked this class"] exactly when
    it does.  When the class does not exist, the query of the store finds
    nothing and the validation does not answer 'duplicate'. *)
Theorem duplicate_checks_agree (db : store) (rq : BookingRequest) :
  reachable db →
  unique_name_time db →
  match Database.get_class_by_id (req_class_id rq) db with
  | Some fc =>
      (BookingService.already_booked fc
         (BookingService.get_bookings_by_email (req_client_email rq) db) = true ↔
       is_Some (Database.select_booking (req_class_id rq) (req_client_email rq) db)) ∧
      (∀ now, now < start_time (date_time (fc_row fc)) → 0 < available_slots (fc_row fc) →
         BookingService.validate_booking_request now rq db =
           (false, "You have already booked this class"%string) ↔
         is_Some (Database.select_booking (req_class_id rq) (req_client_email rq) db))
  | None =>
      Database.select_booking (req_class_id rq) (req_client_email rq) db = None ∧
      (∀ now, BookingService.validate_booking_request now rq db =
                (false, "Class not found or not available"%string))
  end.
Proof.
  intros Hreach Huniq. apply reachable_dates_ok in Hreach.
  destruct (Database.get_class_by_id (req_class_id rq) db) as [fc|] eqn:Hget.
  - assert (fc_id fc = req_class_id rq ∧
            classes db !! req_class_id rq = Some (fc_row fc)) as [Hid Hfc].
    { unfold Database.get_class_by_id in Hget.
      destruct (classes db !! req_class_id rq) as [r|]; [|done].
      by injection Hget as <-. }
    assert (BookingService.already_booked fc
              (BookingService.get_bookings_by_email (req_client_email rq) db) = true ↔
            is_Some (Database.select_booking (req_class_id rq) (req_client_email rq) db))
      as Hagree.
    { rewrite <- Hid. apply duplicate_checks_agree_on; [done|done|by rewrite Hid]. }
    split; [done|].
    intros now Hfut Hslots. rewrite <- Hagree.
    unfold BookingService.validate_booking_request, BookingService.get_class_by_id.
    rewrite Hget. apply is_future_class_spec in Hfut. rewrite Hfut. simpl.
    rewrite bool_decide_false by lia.
    destruct (BookingService.already_booked fc _); split; done.
  - assert (classes db !! req_class_id rq = None) as Hnone.
    { unfold Database.get_class_by_id in Hget.
      by destruct (classes db !! req_class_id rq). }
    split.
    + apply eq_None_not_Some. rewrite select_booking_is_Some.
      intros (b & Hb & Hc & _). destruct (Hreach b Hb) as (r & Hr & _). congruence.
    + intros now. unfold BookingService.validate_booking_request,
        BookingService.get_class_by_id. by rewrite Hget.
Qed.

Lemma duplicate_checks_agree_witness :
  (BookingService.already_booked
     {| fc_id := 1; fc_row := Database.take_slot (half_past 10) |}
     (BookingService.get_bookings_by_email "john@example.com" johns_store) = true ↔
   is_Some (Database.select_booking 1 "john@example.com" johns_store)) ∧
  (∀ now, now < 10500000 → 0 < 19 →
     BookingService.validate_booking_request now john johns_store =
       (false, "You have already booked this class"%string) ↔
     is_Some (Database.select_booking 1 "john@example.com" johns_store)).
Proof.
  apply (duplicate_checks_agree johns_store john).
  - apply reachable_run, reachable_seed.
  - intros i j ri rj.
    change (classes johns_store) with ({[1 := Database.take_slot (half_past 10)]}
                                        : gmap Z class_row).
    rewrite !lookup_singleton_Some. intros [<- _] [<- _] _ _. reflexivity.
Defined.

(** Both checks do find John's booking in that store. *)
Example johns_booking_is_found :
  BookingService.already_booked
     {| fc_id := 1; fc_row := Database.take_slot (half_past 10) |}
     (BookingService.get_bookings_by_email "john@example.com" johns_store) = true ∧
  is_Some (Database.select_booking 1 "john@example.com" johns_store).
Proof. split; [reflexivity|]. vm_compute. eauto. Qed.

(** ** One client, whatever the letter case *)

Lemma service_create_booking_duplicate now faults rq db :
  bookings_for (req_class_id rq) (req_client_email rq) db ≠ [] →
  BookingService.create_booking now faults rq db = (None, db).
Proof.
  intros Hdup.
  destruct (service_create_booking_cases now faults rq db)
    as [Heq|(r & _ & _ & Hnone & _)]; done.
Qed.

Lemma service_create_booking_Some now faults rq db resp db' :
  BookingService.create_booking now faults rq db = (Some resp, db') →
  ∃ r, classes db !! req_class_id rq = Some r ∧
       db' = booked (req_class_id rq) (req_client_name rq) (req_client_email rq) r db.
Proof.
  intros Heq.
  destruct (service_create_booking_cases now faults rq db)
    as [Hn|(r & Hr & _ & _ & _ & _ & Hb)].
  - rewrite Hn in Heq. done.
  - exists r. rewrite Heq in Hb. done.
Qed.

(** After a booking, a further request for the same class and address is
    turned down by the validation and by the creation. *)
Lemma booked_then_rejected c n e r db now faults rq :
  classes db !! c = Some r →
  req_class_id rq = c → req_client_email rq = e →
  (BookingService.validate_booking_request now rq (booked c n e r db)).1 = false ∧
  BookingService.create_booking now faults rq (booked c n e r db) =
    (None, booked c n e r db).
Proof.
  intros Hr Hc He. split.
  - unfold BookingService.validate_booking_request, BookingService.get_class_by_id,
      Database.get_class_by_id.
    rewrite Hc, (booked_class c n e r db c r Hr Hr).
    rewrite (bool_decide_true (c = c)) by done. simpl.
    destruct (is_future_class now (date_time r)); simpl; [|done].
    case_bool_decide; [done|].
    rewrite (proj2 (already_booked_true _ _)); [done|].
    set (b := {| booking_id := Database.next_rowid db; class_id := c; client_name := n;
                 client_email := e; booking_date := date_time r |}).
    exists (Database.join_row b (Database.take_slot r)).
    split_and!; [|done|apply dt_eq_refl].
    apply get_bookings_by_email_elem. exists b, (Database.take_slot r).
    split_and!; [|done| |done].
    + unfold booked. simpl. apply elem_of_app. right. left.
    + cbn [class_id b]. rewrite (booked_class c n e r db c r Hr Hr).
      by rewrite (bool_decide_true (c = c)).
  - apply service_create_booking_duplicate. rewrite Hc, He, booked_bookings_for.
    rewrite (bool_decide_true (c = c ∧ e = e)) by done.
    by destruct (bookings_for c e db).
Qed.

(** C8. For a valid address [e], the request submitted with the upper-case
    form of [e] and the one submitted with its lower-case form are both
    accepted and carry the same normalised address.  Hence they are one
    client for the duplicate check: in a store that holds a booking of the
    class for that address both are turned down, and once one of them has
    produced a booking, the other is turned down, by the validation and by
    the creation, the store staying as it is. *)
Theorem letter_case_is_one_client (e m : string) (cid : Z) (n_up n_low : string) :
  validate_client_email e = Some m →
  ∃ rq_up rq_low,
    request_with_email cid n_up (upper e) = Some rq_up ∧
    request_with_email cid n_low (lower e) = Some rq_low ∧
    req_client_email rq_up = m ∧ req_client_email rq_low = m ∧
    (∀ db now faults,
       bookings_for cid m db ≠ [] →
       BookingService.create_booking now faults rq_up db = (None, db) ∧
       BookingService.create_booking now faults rq_low db = (None, db)) ∧
    (∀ db now faults resp db',
       BookingService.create_booking now faults rq_up db = (Some resp, db') →
       ∀ now' faults',
         (BookingService.validate_booking_request now' rq_low db').1 = false ∧
         BookingService.create_booking now' faults' rq_low db' = (None, db')) ∧
    (∀ db now faults resp db',
       BookingService.create_booking now faults rq_low db = (Some resp, db') →
       ∀ now' faults',
         (BookingService.validate_booking_request now' rq_up db').1 = false ∧
         BookingService.create_booking now' faults' rq_up db' = (None, db')).
Proof.
  intros Hm.
  exists {| req_class_id := cid; req_client_name := n_up; req_client_email := m |},
         {| req_class_id := cid; req_client_name := n_low; req_client_email := m |}.
  unfold request_with_email.
  rewrite validate_client_email_upper, validate_client_email_lower, Hm. simpl.
  split_and!; try done.
  - intros db now faults Hdup. split; by apply service_create_booking_duplicate.
  - intros db now faults resp db' Hbooked now' faults'.
    apply service_create_booking_Some in Hbooked as (r & Hr & ->). simpl in *.
    by apply booked_then_rejected.
  - intros db now faults resp db' Hbooked now' faults'.
    apply service_create_booking_Some in Hbooked as (r & Hr & ->). simpl in *.
    by apply booked_then_rejected.
Qed.

Lemma letter_case_is_one_client_witness :
  ∃ rq_up rq_low,
    request_with_email 1 "John Doe" "JOHN@EXAMPLE.COM" = Some rq_up ∧
    request_with_email 1 "J. Doe" "john@example.com" = Some rq_low ∧
    req_client_email rq_up = "john@example.com"%string ∧
    req_client_email rq_low = "john@example.com"%string ∧
    (∀ db now faults,
       bookings_for 1 "john@example.com" db ≠ [] →
       BookingService.create_booking now faults rq_up db = (None, db) ∧
       BookingService.create_booking now faults rq_low db = (None, db)) ∧
    (∀ db now faults resp db',
       BookingService.create_booking now faults rq_up db = (Some resp, db') →
       ∀ now' faults',
         (BookingService.validate_booking_request now' rq_low db').1 = false ∧
         BookingService.create_booking now' faults' rq_low db' = (None, db')) ∧
    (∀ db now faults resp db',
       BookingService.create_booking now faults rq_low db = (Some resp, db') →
       ∀ now' faults',
         (BookingService.validate_booking_request now' rq_up db').1 = false ∧
         BookingService.create_booking now' faults' rq_up db' = (None, db')).
Proof.
  apply (letter_case_is_one_client "John@Example.com" "john@example.com" 1
           "John Doe" "J. Doe").
  reflexivity.
Defined.

(** ** The tests of the repository, replayed on the seeded store *)

(** [test_create_booking_valid]: the booking is answered and the class has
    one slot less. *)
Example test_create_booking_valid :
  let '(resp, db') := BookingService.create_booking 0 no_faults john (seed_data 0) in
  (resp_booking_id <$> resp) = Some 1 ∧
  (resp_class_name <$> resp) = Some "Yoga"%string ∧
  (message <$> resp) = Some "Booking successful!"%string ∧
  (available_slots ∘ fc_row <$> BookingService.get_class_by_id 0 1 db') = Some 19.
Proof. vm_compute. split_and!; reflexivity. Qed.

(** [test_create_booking_invalid_class]. *)
Example test_create_booking_invalid_class :
  BookingService.create_booking 0 no_faults
    {| req_class_id := 999; req_client_name := "John Doe";
       req_client_email := "john@example.com" |} (seed_data 0) = (None, seed_data 0).
Proof. reflexivity. Qed.

(** [test_create_booking_no_slots]: after the twenty slots of class 1 are
    booked, one more client is turned down. *)
Example test_create_booking_no_slots :
  let db := run (users_book 0 1 20) (seed_data 0) in
  (available_slots ∘ fc_row <$> BookingService.get_class_by_id 0 1 db) = Some 0 ∧
  BookingService.create_booking 0 no_faults
    {| req_class_id := 1; req_client_name := "Extra User";
       req_client_email := "extra@example.com" |} db = (None, db) ∧
  BookingService.validate_booking_request 0
    {| req_class_id := 1; req_client_name := "Extra User";
       req_client_email := "extra@example.com" |} db =
    (false, "No available slots for this class"%string).
Proof. vm_compute. split_and!; reflexivity. Qed.

(** [test_create_booking_duplicate] and
    [test_validate_booking_request_duplicate]. *)
Example test_create_booking_duplicate :
  let db := (BookingService.create_booking 0 no_faults john (seed_data 0)).2 in
  BookingService.create_booking 0 no_faults john db = (None, db) ∧
  BookingService.validate_booking_request 0 john db =
    (false, "You have already booked this class"%string).
Proof. vm_compute. split; reflexivity. Qed.

(** [test_validate_booking_request_valid]. *)
Example test_validate_booking_request_valid :
  BookingService.validate_booking_request 0 john (seed_data 0) =
    (true, "Valid booking request"%string).
Proof. reflexivity. Qed.

(** [test_model_validation]: the address is put in lower case; an address
    without a top-level domain is refused. *)
Example test_model_validation :
  validate_client_email "JOHN@EXAMPLE.COM" = Some "john@example.com"%string ∧
  validate_client_email "john@example" = None ∧
  validate_class_id 0 = None.
Proof. split_and!; reflexivity. Qed.

(** A fault of the UPDATE comes after the INSERT went through: the open
    transaction holds the new row, and the rollback drops it. *)
Example rollback_drops_the_inserted_row :
  let faults := λ s, match s with Database.UpdateClass => true | _ => false end in
  let '(answer, c) := Database.create_booking_try faults 1 "John Doe" "john@example.com"
                        (Database.get_connection (seed_data 0)) in
  answer = Database.Raised ∧
  length (bookings (Database.pending c)) = 1%nat ∧
  Database.create_booking faults 1 "John Doe" "john@example.com" (seed_data 0)
    = (Database.Returned None, seed_data 0).
Proof. vm_compute. split_and!; reflexivity. Qed.

(** The percentage rounds half to even on the binary value:
    [round(1 / 32 * 100, 2)] is 3.12, not 3.13. *)
Example round_half_even_3_125 :
  float_mul_int (int_truediv 1 32) 100 = S754_finite false 7036874417766400 (-51) ∧
  py_round2 (float_mul_int (int_truediv 1 32) 100) = decimal2 312.
Proof. split; reflexivity. Qed.

(** * Further properties of the code *)

(** ** Booking ids *)

Lemma foldr_max_bounded (m : Z) (l : list Z) :
  Forall (λ x, x <= m) l → foldr Z.max m l = m.
Proof.
  induction 1 as [|x l Hx _ IH]; [done|]. cbn [foldr]. rewrite IH. lia.
Qed.

Lemma next_rowid_fresh db b : b ∈ bookings db → booking_id b < Database.next_rowid db.
Proof.
  unfold Database.next_rowid. intros Hb.
  assert (booking_id b <= foldr Z.max (sqlite_sequence db) (booking_id <$> bookings db));
    [|lia].
  induction (bookings db) as [|b0 l IH]; [by apply elem_of_nil in Hb|].
  rewrite fmap_cons. cbn [foldr].
  apply elem_of_cons in Hb as [->|Hb]; [lia|]. specialize (IH Hb). lia.
Qed.

Lemma reachable_ids db :
  reachable db →
  booking_id <$> bookings db = seqZ 1 (Z.of_nat (length (bookings db))) ∧
  sqlite_sequence db = Z.of_nat (length (bookings db)).
Proof.
  induction 1 as [cls|db o _ [IHids IHseq]]; [done|].
  destruct (run_op_cases db o) as [->|(c & n & e & r & _ & _ & _ & ->)]; [done|].
  assert (Database.next_rowid db = 1 + Z.of_nat (length (bookings db))) as Hnext.
  { unfold Database.next_rowid. rewrite IHids, IHseq, foldr_max_bounded; [done|].
    apply Forall_seqZ. lia. }
  unfold booked. cbn [bookings sqlite_sequence].
  rewrite fmap_app, length_app, IHids, Hnext. cbn [length fmap list_fmap booking_id].
  rewrite Nat.add_1_r, seqZ_S. split; [done|lia].
Qed.

(** X1.  In every store the system can be in, the bookings carry the ids
    1, 2, 3, ... in the order they were made, and the AUTOINCREMENT counter
    is their number: ids are positive, never repeated and never reused, and
    the next booking gets the number of bookings plus one. *)
Theorem booking_ids_are_consecutive (db : store) :
  reachable db →
  booking_id <$> bookings db = seqZ 1 (Z.of_nat (length (bookings db))) ∧
  sqlite_sequence db = Z.of_nat (length (bookings db)) ∧
  NoDup (booking_id <$> bookings db) ∧
  (∀ b, b ∈ bookings db → 0 < booking_id b) ∧
  Database.next_rowid db = Z.of_nat (length (bookings db)) + 1.
Proof.
  intros Hreach. destruct (reachable_ids db Hreach) as [Hids Hseq].
  split_and!; [done|done| | |].
  - rewrite Hids. apply NoDup_seqZ.
  - intros b Hb. assert (booking_id b ∈ booking_id <$> bookings db) as Hin
      by by apply list_elem_of_fmap_2.
    rewrite Hids in Hin. apply elem_of_seqZ in Hin. lia.
  - unfold Database.next_rowid. rewrite Hids, Hseq, foldr_max_bounded; [lia|].
    apply Forall_seqZ. lia.
Qed.

Lemma booking_ids_are_consecutive_witness :
  booking_id <$> bookings (two_classes_booked 0) = seqZ 1 20 ∧
  sqlite_sequence (two_classes_booked 0) = 20 ∧
  NoDup (booking_id <$> bookings (two_classes_booked 0)) ∧
  (∀ b, b ∈ bookings (two_classes_booked 0) → 0 < booking_id b) ∧
  Database.next_rowid (two_classes_booked 0) = 21.
Proof.
  apply (booking_ids_are_consecutive (two_classes_booked 0)).
  apply reachable_run, reachable_seed.
Defined.

(** ** Looking a booking up *)

Lemma omap_join_all_found db (l : list Booking) :
  (∀ b, b ∈ l → is_Some (classes db !! class_id b)) →
  bh_id <$> omap (λ b, Database.join_row b <$> classes db !! class_id b) l =
  booking_id <$> l.
Proof.
  induction l as [|b l IH]; intros Hall; [done|].
  destruct (Hall b) as [r Hr]; [left|].
  simpl. rewrite Hr. simpl. f_equal. apply IH.
  intros b' Hb'. apply Hall. by right.
Qed.

Lemma get_booking_by_id_Some i db h :
  Database.get_booking_by_id i db = Some h →
  ∃ b r, b ∈ bookings db ∧ booking_id b = i ∧
         classes db !! class_id b = Some r ∧ h = Database.join_row b r.
Proof.
  unfold Database.get_booking_by_id. intros Hh.
  apply head_Some_elem_of, list_elem_of_omap in Hh as (b & Hb & Hj).
  apply list_elem_of_filter in Hb as [Hi Hb].
  destruct (classes db !! class_id b) as [r|] eqn:Hr; [|done].
  injection Hj as <-. by exists b, r.
Qed.

(** X2.  In every store the system can be in, [get_booking_by_id] answers
    exactly for the ids handed out so far, 1 up to the number of bookings,
    and [None] for every other id; the answer is the booking row of that id,
    with the name of its class. *)
Theorem get_booking_by_id_answers_issued_ids (db : store) (i : Z) :
  reachable db →
  (is_Some (Database.get_booking_by_id i db) ↔
   1 <= i <= Z.of_nat (length (bookings db))) ∧
  (∀ h, Database.get_booking_by_id i db = Some h →
        ∃ b r, bookings db !! Z.to_nat (i - 1) = Some b ∧ booking_id b = i ∧
               classes db !! class_id b = Some r ∧ h = Database.join_row b r).
Proof.
  intros Hreach. destruct (reachable_ids db Hreach) as [Hids _].
  pose proof (reachable_dates_ok db Hreach) as Hok.
  split.
  - unfold Database.get_booking_by_id. rewrite head_is_Some.
    set (l := filter (λ b, booking_id b = i) (bookings db)).
    assert (∀ b, b ∈ l → is_Some (classes db !! class_id b)) as Hall.
    { intros b Hb. apply list_elem_of_filter in Hb as [_ Hb].
      destruct (Hok b Hb) as (r & Hr & _). by exists r. }
    assert (omap (λ b, Database.join_row b <$> classes db !! class_id b) l ≠ [] ↔ l ≠ [])
      as ->.
    { pose proof (omap_join_all_found db l Hall) as Heq.
      split; intros Hne Hnil.
      - rewrite Hnil in Hne. done.
      - rewrite Hnil in Heq. destruct l; [done|]. done. }
    assert (l ≠ [] ↔ i ∈ booking_id <$> bookings db) as ->.
    { rewrite list_elem_of_fmap. split.
      - intros Hne. destruct l as [|b l'] eqn:Hl; [done|].
        assert (b ∈ l) as Hb by (rewrite Hl; left).
        apply list_elem_of_filter in Hb as [Hi Hb]. by exists b.
      - intros (b & -> & Hb) Hnil.
        assert (b ∈ l) as Hin by by apply list_elem_of_filter.
        rewrite Hnil in Hin. by apply elem_of_nil in Hin. }
    rewrite Hids, elem_of_seqZ. lia.
  - intros h Hh.
    apply get_booking_by_id_Some in Hh as (b & r & Hb & Hi & Hr & ->).
    exists b, r. split_and!; try done.
    apply list_elem_of_lookup in Hb as [k Hk].
    assert ((booking_id <$> bookings db) !! k = Some (booking_id b)) as Hk'
      by by rewrite list_lookup_fmap, Hk.
    rewrite Hids in Hk'. apply lookup_seqZ in Hk' as [Hk' _].
    replace (Z.to_nat (i - 1)) with k by lia. done.
Qed.

Lemma get_booking_by_id_answers_issued_ids_witness :
  (is_Some (Database.get_booking_by_id 7 (two_classes_booked 0)) ↔
   1 <= 7 <= Z.of_nat (length (bookings (two_classes_booked 0)))) ∧
  (∀ h, Database.get_booking_by_id 7 (two_classes_booked 0) = Some h →
        ∃ b r, bookings (two_classes_booked 0) !! Z.to_nat (7 - 1) = Some b ∧
               booking_id b = 7 ∧
               classes (two_classes_booked 0) !! class_id b = Some r ∧
               h = Database.join_row b r).
Proof.
  apply (get_booking_by_id_answers_issued_ids (two_classes_booked 0) 7).
  apply reachable_run, reachable_seed.
Defined.

(** What a response of the service tells about the call. *)
Lemma service_create_booking_response now faults rq db resp db' :
  BookingService.create_booking now faults rq db = (Some resp, db') →
  ∃ r, classes db !! req_class_id rq = Some r ∧
       now < start_time (date_time r) ∧ 0 < available_slots r ∧
       bookings_for (req_class_id rq) (req_client_email rq) db = [] ∧
       (∀ s, faults s = false) ∧
       resp = response_for rq r (Database.next_rowid db) ∧
       db' = booked (req_class_id rq) (req_client_name rq) (req_client_email rq) r db.
Proof.
  unfold BookingService.create_booking, BookingService.create_booking_over,
    BookingService.get_class_by_id,
    Database.get_class_by_id.
  destruct (classes db !! req_class_id rq) as [r|] eqn:Hl; simpl; [|done].
  destruct (is_future_class now (date_time r)) eqn:Hfut; simpl; [|done].
  case_bool_decide; [done|].
  destruct (create_booking_cases faults (req_class_id rq) (req_client_name rq)
              (req_client_email rq) db) as [->|(r' & Hl' & Hpos & Hdup & Hf & ->)]; [done|].
  case_bool_decide; [done|]. intros [= <- <-].
  assert (r' = r) as -> by congruence. apply is_future_class_spec in Hfut.
  exists r. done.
Qed.

Lemma service_create_booking_call_response now o faults rq db resp db' :
  BookingService.create_booking_call now o faults rq db = (Some resp, db') →
  o = Database.Opened ∧
  ∃ r, classes db !! req_class_id rq = Some r ∧
       now < start_time (date_time r) ∧ 0 < available_slots r ∧
       bookings_for (req_class_id rq) (req_client_email rq) db = [] ∧
       (∀ s, faults s = false) ∧
       resp = response_for rq r (Database.next_rowid db) ∧
       db' = booked (req_class_id rq) (req_client_name rq) (req_client_email rq) r db.
Proof.
  destruct (decide (o = Database.Opened)) as [->|Ho].
  - rewrite service_create_booking_call_Opened. intros Hc.
    split; [done|]. by apply (service_create_booking_response now faults).
  - by rewrite (service_create_booking_call_not_Opened now o faults rq db Ho).
Qed.

Lemma get_booking_by_id_booked c n e r db :
  classes db !! c = Some r →
  Database.get_booking_by_id (Database.next_rowid db) (booked c n e r db) =
    Some {| bh_id := Database.next_rowid db; class_name := name r;
            bh_client_name := n; bh_client_email := e;
            bh_booking_date := date_time r |}.
Proof.
  intros Hr. unfold Database.get_booking_by_id.
  assert (filter (λ b, booking_id b = Database.next_rowid db) (bookings db) = []) as Hold.
  { destruct (filter _ (bookings db)) as [|b l] eqn:Hf; [done|].
    assert (b ∈ filter (λ b, booking_id b = Database.next_rowid db) (bookings db)) as Hb
      by (rewrite Hf; left).
    apply list_elem_of_filter in Hb as [Hi Hb].
    pose proof (next_rowid_fresh db b Hb). lia. }
  unfold booked at 2. cbn [bookings]. rewrite filter_app, Hold, filter_cons.
  cbn [booking_id]. rewrite decide_True by done. rewrite filter_nil. simpl.
  rewrite lookup_insert_eq. done.
Qed.

(** X3.  A booking the service answers can be read back: looking the
    answered booking id up in the store the call leaves gives the booking
    with the class name, client name, address and date of the response. *)
Theorem answered_booking_can_be_read_back
    (now : Z) (faults : Database.stmt → bool) (rq : BookingRequest)
    (db db' : store) (resp : BookingResponse) :
  BookingService.create_booking now faults rq db = (Some resp, db') →
  Database.get_booking_by_id (resp_booking_id resp) db' =
    Some {| bh_id := resp_booking_id resp; class_name := resp_class_name resp;
            bh_client_name := resp_client_name resp;
            bh_client_email := resp_client_email resp;
            bh_booking_date := resp_booking_date resp |} ∧
  resp_client_name resp = req_client_name rq ∧
  resp_client_email resp = req_client_email rq.
Proof.
  intros Hcall.
  apply service_create_booking_response in Hcall
    as (r & Hr & _ & _ & _ & _ & -> & ->).
  split; [|done]. by apply get_booking_by_id_booked.
Qed.

Lemma answered_booking_can_be_read_back_witness :
  Database.get_booking_by_id 1 (BookingService.create_booking 0 no_faults john (seed_data 0)).2 =
    Some {| bh_id := 1; class_name := "Yoga";
            bh_client_name := "John Doe"; bh_client_email := "john@example.com";
            bh_booking_date :=
              date_time (sample_class 0 "Yoga" 1 10 "Sarah Johnson" 20) |} ∧
  "John Doe"%string = req_client_name john ∧
  "john@example.com"%string = req_client_email john.
Proof.
  apply (answered_booking_can_be_read_back 0 no_faults john (seed_data 0)
           (BookingService.create_booking 0 no_faults john (seed_data 0)).2
           (response_for john (sample_class 0 "Yoga" 1 10 "Sarah Johnson" 20) 1)).
  reflexivity.
Defined.

(** ** Bookings and their classes *)

(** X4.  In every store the system can be in, every booking row refers to a
    class that exists, carries the stored start time of that class as its
    [booking_date], and has a positive id: no booking dangles, although the
    schema's foreign key is never enforced. *)
Theorem bookings_refer_to_existing_classes (db : store) (b : Booking) :
  reachable db →
  b ∈ bookings db →
  ∃ r, classes db !! class_id b = Some r ∧
       booking_date b = date_time r ∧
       0 < booking_id b.
Proof.
  intros Hreach Hb.
  destruct (reachable_dates_ok db Hreach b Hb) as (r & Hr & Hd).
  exists r. split_and!; [done|done|].
  destruct (reachable_ids db Hreach) as [Hids _].
  assert (booking_id b ∈ booking_id <$> bookings db) as Hin
    by by apply list_elem_of_fmap_2.
  rewrite Hids in Hin. apply elem_of_seqZ in Hin. lia.
Qed.

Lemma bookings_refer_to_existing_classes_witness :
  ∃ r, classes johns_store !! 1 = Some r ∧
       date_time (half_past 10) = date_time r ∧
       0 < 1.
Proof.
  apply (bookings_refer_to_existing_classes johns_store
           {| booking_id := 1; class_id := 1; client_name := "John Doe";
              client_email := "john@example.com";
              booking_date := date_time (half_past 10) |}).
  - apply reachable_run, reachable_seed.
  - left.
Defined.

(** ** The history of an address *)

Global Instance history_order_total : Total history_order.
Proof. intros h1 h2. destruct (text_le_total (bh_booking_date h2) (bh_booking_date h1)); auto. Qed.

Global Instance history_order_trans : Transitive history_order.
Proof. intros h1 h2 h3 H12 H23. unfold history_order in *. by etrans. Qed.

(** X5.  In every store the system can be in, the history of an address
    holds each booking row with exactly that address once, and no other
    (no row is lost in the join with the classes); every entry carries the
    name of the booking's class; and the entries are sorted by the stored
    [booking_date] text, latest first. *)
Theorem history_holds_each_booking_once (db : store) (email : string) :
  reachable db →
  bh_id <$> BookingService.get_bookings_by_email email db ≡ₚ
    booking_id <$> filter (λ b, client_email b = email) (bookings db) ∧
  (∀ h, h ∈ BookingService.get_bookings_by_email email db →
        bh_client_email h = email ∧
        ∃ b r, b ∈ bookings db ∧ classes db !! class_id b = Some r ∧
               h = Database.join_row b r) ∧
  StronglySorted history_order (BookingService.get_bookings_by_email email db).
Proof.
  intros Hreach. pose proof (reachable_dates_ok db Hreach) as Hok.
  unfold BookingService.get_bookings_by_email. split_and!.
  - unfold Database.get_bookings_by_email. rewrite merge_sort_Permutation.
    rewrite omap_join_all_found; [done|].
    intros b Hb. apply list_elem_of_filter in Hb as [_ Hb].
    destruct (Hok b Hb) as (r & Hr & _). by exists r.
  - intros h Hh. apply get_bookings_by_email_elem in Hh as (b & r & Hb & He & Hr & ->).
    split; [done|]. by exists b, r.
  - apply StronglySorted_merge_sort; apply _.
Qed.

Lemma history_holds_each_booking_once_witness :
  bh_id <$> BookingService.get_bookings_by_email "user3@example.com" (two_classes_booked 0) ≡ₚ
    booking_id <$> filter (λ b, client_email b = "user3@example.com"%string)
                          (bookings (two_classes_booked 0)) ∧
  (∀ h, h ∈ BookingService.get_bookings_by_email "user3@example.com" (two_classes_booked 0) →
        bh_client_email h = "user3@example.com"%string ∧
        ∃ b r, b ∈ bookings (two_classes_booked 0) ∧
               classes (two_classes_booked 0) !! class_id b = Some r ∧
               h = Database.join_row b r) ∧
  StronglySorted history_order
    (BookingService.get_bookings_by_email "user3@example.com" (two_classes_booked 0)).
Proof.
  apply (history_holds_each_booking_once (two_classes_booked 0) "user3@example.com").
  apply reachable_run, reachable_seed.
Defined.

(** User 3 booked both classes: the later class, Zumba, comes first. *)
Example history_of_user3 :
  (λ h, (bh_id h, class_name h)) <$>
    BookingService.get_bookings_by_email "user3@example.com" (two_classes_booked 0) =
  [(9, "Zumba"%string); (4, "Yoga"%string)].
Proof. vm_compute. reflexivity. Qed.

(** ** Slots and bookings in step *)

Lemma booked_class_bookings c n e r db cid :
  class_bookings cid (booked c n e r db) =
  class_bookings cid db ++
    (if bool_decide (c = cid)
     then [{| booking_id := Database.next_rowid db; class_id := c; client_name := n;
              client_email := e; booking_date := date_time r |}]
     else []).
Proof.
  unfold class_bookings, booked. simpl. rewrite filter_app. f_equal.
  rewrite filter_cons, filter_nil. simpl.
  case_bool_decide; [by rewrite decide_True|by rewrite decide_False].
Qed.

Lemma run_op_balance db o cid r :
  classes db !! cid = Some r →
  ∃ r', classes (run_op db o) !! cid = Some r' ∧
        available_slots r' + Z.of_nat (length (class_bookings cid (run_op db o))) =
        available_slots r + Z.of_nat (length (class_bookings cid db)) ∧
        (0 <= available_slots r → 0 <= available_slots r').
Proof.
  intros Hr.
  destruct (run_op_cases db o) as [->|(c & n & e & r0 & Hr0 & Hpos & _ & ->)].
  - by exists r.
  - rewrite (booked_class c n e r0 db _ _ Hr0 Hr), booked_class_bookings.
    eexists. split; [done|]. case_bool_decide as Hc.
    + subst. assert (r0 = r) as -> by congruence.
      rewrite length_app. simpl. lia.
    + rewrite app_nil_r. done.
Qed.

(** X6.  Slots and bookings stay in step.  Along every history of calls,
    in either layer and with any faults, the free slots of a class plus the
    number of its booking rows stay what they were: each new booking row
    costs exactly one slot and nothing else moves the counter.  So a class
    with [k >= 0] free slots gets at most [k] further bookings. *)
Theorem slots_and_bookings_stay_in_step (db : store) (cid : Z) (r : class_row) (ops : list op) :
  classes db !! cid = Some r →
  ∃ r', classes (run ops db) !! cid = Some r' ∧
        available_slots r' + Z.of_nat (length (class_bookings cid (run ops db))) =
        available_slots r + Z.of_nat (length (class_bookings cid db)) ∧
        (0 <= available_slots r →
         Z.of_nat (length (class_bookings cid (run ops db))) <=
         Z.of_nat (length (class_bookings cid db)) + available_slots r).
Proof.
  intros Hr.
  assert (∃ r', classes (run ops db) !! cid = Some r' ∧
            available_slots r' + Z.of_nat (length (class_bookings cid (run ops db))) =
            available_slots r + Z.of_nat (length (class_bookings cid db)) ∧
            (0 <= available_slots r → 0 <= available_slots r')) as (r' & Hr' & Heq & Hpos).
  { induction ops as [|o ops IH] using rev_ind; [by exists r|].
    destruct IH as (r1 & Hr1 & Heq1 & Hpos1). rewrite run_snoc.
    destruct (run_op_balance (run ops db) o cid r1 Hr1) as (r2 & Hr2 & Heq2 & Hpos2).
    exists r2. split_and!; [done|lia|auto]. }
  exists r'. split_and!; [done|done|]. intros H0. specialize (Hpos H0). lia.
Qed.

Lemma slots_and_bookings_stay_in_step_witness :
  ∃ r', classes (two_classes_booked 0) !! 1 = Some r' ∧
        available_slots r' + Z.of_nat (length (class_bookings 1 (two_classes_booked 0))) =
        20 + 0 ∧
        (0 <= 20 →
         Z.of_nat (length (class_bookings 1 (two_classes_booked 0))) <= 0 + 20).
Proof.
  apply (slots_and_bookings_stay_in_step (two_classes 0) 1
           (sample_class 0 "Yoga" 1 10 "Sarah Johnson" 20)
           (users_book 0 1 5 ++ users_book 0 2 15)).
  reflexivity.
Defined.

Lemma run_op_sold_out db o cid r :
  classes db !! cid = Some r → available_slots r <= 0 →
  classes (run_op db o) !! cid = Some r ∧
  class_bookings cid (run_op db o) = class_bookings cid db.
Proof.
  intros Hr Hfull.
  destruct (run_op_cases db o) as [->|(c & n & e & r0 & Hr0 & Hpos & _ & ->)]; [done|].
  rewrite (booked_class c n e r0 db _ _ Hr0 Hr), booked_class_bookings.
  case_bool_decide as Hc.
  - subst. assert (r0 = r) as -> by congruence. lia.
  - by rewrite app_nil_r.
Qed.

(** X7.  A class without a free slot is closed for good: along every
    history of calls its row stays exactly as it is and it gets no further
    booking row; no call ever gives a slot back. *)
Theorem sold_out_class_stays_sold_out (db : store) (cid : Z) (r : class_row) (ops : list op) :
  classes db !! cid = Some r →
  available_slots r <= 0 →
  classes (run ops db) !! cid = Some r ∧
  class_bookings cid (run ops db) = class_bookings cid db.
Proof.
  intros Hr Hfull. induction ops as [|o ops [IH1 IH2]] using rev_ind; [done|].
  rewrite run_snoc.
  destruct (run_op_sold_out (run ops db) o cid r IH1 Hfull) as [H1 H2].
  split; [done|]. by rewrite H2.
Qed.

Lemma sold_out_class_stays_sold_out_witness :
  classes (run (users_book 0 2 3) (two_classes_booked 0)) !! 2 =
    classes (two_classes_booked 0) !! 2 ∧
  class_bookings 2 (run (users_book 0 2 3) (two_classes_booked 0)) =
    class_bookings 2 (two_classes_booked 0).
Proof.
  destruct (sold_out_class_stays_sold_out (two_classes_booked 0) 2
              (Database.take_slot (Database.take_slot (Database.take_slot
                (Database.take_slot (Database.take_slot (Database.take_slot
                (Database.take_slot (Database.take_slot (Database.take_slot
                (Database.take_slot (Database.take_slot (Database.take_slot
                (Database.take_slot (Database.take_slot (Database.take_slot
                  (sample_class 0 "Zumba" 1 18 "Mike Rodriguez" 15))))))))))))))))
              (users_book 0 2 3)) as [H1 H2].
  - reflexivity.
  - simpl. lia.
  - split; [|exact H2]. rewrite H1. reflexivity.
Defined.

(** ** What a call never touches *)

Lemma run_op_frame db o :
  bookings db `prefix_of` bookings (run_op db o) ∧
  dom (classes (run_op db o)) = dom (classes db) ∧
  (∀ cid r, classes db !! cid = Some r →
     ∃ r', classes (run_op db o) !! cid = Some r' ∧
           name r' = name r ∧ date_time r' = date_time r ∧
           instructor r' = instructor r ∧ total_slots r' = total_slots r).
Proof.
  destruct (run_op_cases db o) as [->|(c & n & e & r0 & Hr0 & _ & _ & ->)].
  - split_and!; [done|done|]. intros cid r Hr. by exists r.
  - split_and!.
    + unfold booked. simpl. by apply prefix_app_r.
    + unfold booked. simpl. by apply dom_insert_lookup_L.
    + intros cid r Hr. rewrite (booked_class c n e r0 db _ _ Hr0 Hr).
      eexists. split; [done|]. by case_bool_decide.
Qed.

Lemma run_dom ops db : dom (classes (run ops db)) = dom (classes db).
Proof.
  induction ops as [|o ops IH] using rev_ind; [done|].
  rewrite run_snoc. destruct (run_op_frame (run ops db) o) as (_ & H2 & _).
  by rewrite H2.
Qed.

(** X8.  What no call ever does.  Along every history of calls the table
    of bookings only grows at its end (no row is deleted, changed or
    reordered), the set of class ids stays the same (no class is created or
    deleted), and every class keeps its name, start time, instructor and
    [total_slots]: [available_slots] is the only column a call changes. *)
Theorem calls_only_append_bookings (db : store) (ops : list op) :
  bookings db `prefix_of` bookings (run ops db) ∧
  dom (classes (run ops db)) = dom (classes db) ∧
  (∀ cid r, classes db !! cid = Some r →
     ∃ r', classes (run ops db) !! cid = Some r' ∧
           name r' = name r ∧ date_time r' = date_time r ∧
           instructor r' = instructor r ∧ total_slots r' = total_slots r).
Proof.
  induction ops as [|o ops (IH1 & IH2 & IH3)] using rev_ind.
  - split_and!; [done|done|]. intros cid r Hr. by exists r.
  - rewrite run_snoc. destruct (run_op_frame (run ops db) o) as (H1 & H2 & H3).
    split_and!.
    + by etrans.
    + by rewrite H2.
    + intros cid r Hr. destruct (IH3 cid r Hr) as (r1 & Hr1 & ? & ? & ? & ?).
      destruct (H3 cid r1 Hr1) as (r2 & Hr2 & ? & ? & ? & ?).
      exists r2. split_and!; [done|congruence..].
Qed.

(** ** Opening the database again *)

Lemma seeded_classes_not_empty now : classes (seed_data now) ≠ ∅.
Proof.
  intros Hempty.
  assert (classes (seed_data now) !! 1 = None) as Hnone by (rewrite Hempty; apply lookup_empty).
  unfold seed_data in Hnone. simpl in Hnone. by rewrite lookup_insert_eq in Hnone.
Qed.

(** X9.  Opening the database is safe to repeat.  It seeds the sample
    classes into an empty table only; it never touches a booking; and once
    the database has been opened, opening it again after any history of
    calls, as every start of the service does, changes nothing: no slot
    counter is reset and no class is seeded twice. *)
Theorem opening_again_changes_nothing (now now' : Z) (db : store) (ops : list op) :
  bookings (open_database now db) = bookings db ∧
  (classes db ≠ ∅ → open_database now db = db) ∧
  open_database now' (run ops (open_database now db)) = run ops (open_database now db).
Proof.
  split_and!.
  - unfold open_database. by case_bool_decide.
  - intros Hne. unfold open_database. by rewrite bool_decide_false.
  - assert (classes (open_database now db) ≠ ∅) as Hne.
    { unfold open_database. case_bool_decide; [|done]. apply seeded_classes_not_empty. }
    pose proof (run_dom ops (open_database now db)) as Hdom.
    unfold open_database at 1. rewrite bool_decide_false; [done|].
    intros Hempty. apply Hne. apply dom_empty_iff_L. rewrite <- Hdom, Hempty.
    apply dom_empty_L.
Qed.

(** ** Validation, then creation *)







(** The race of the two clock readings, on the store with one class that
    starts at second 10.5: validated at second 10.4, the request is turned
    down at second 10.6 although nothing failed. *)
Example class_starts_between_the_readings :
  BookingService.validate_booking_request 10400000 john (one_class (half_past 10)) =
    (true, "Valid booking request"%string) ∧
  book_class 10400000 10600000 Database.Opened no_faults john (one_class (half_past 10)) =
    (inl "Failed to create booking. Please try again."%string, one_class (half_past 10)) ∧
  (book_class 10400000 10450000 Database.Opened no_faults john (one_class (half_past 10))).1 =
    inr (response_for john (half_past 10) 1).
Proof. split_and!; reflexivity. Qed.

(** ** What the [/book] handler answers *)




(** ** Listing and fetching *)

(** X12.  A class is listed exactly when [get_class_by_id] hands it out at
    the same clock reading and the query of the listing keeps it; so every
    listed class can be fetched by its id, through the service and, its id
    being positive, through the [/classes/{class_id}] handler, which answers
    400 for an id that is not positive and 404 for a class that is missing
    or has started. *)
Theorem listed_classes_can_be_fetched (now : Z) (db : store) (c : FitnessClass) :
  (c ∈ BookingService.get_all_classes now db ↔
   BookingService.get_class_by_id now (fc_id c) db = Some c ∧
   sql_datetime_now now < sql_datetime (date_time (fc_row c))) ∧
  (c ∈ BookingService.get_all_classes now db → 0 < fc_id c →
   Api.get_class_by_id now (fc_id c) db = Api.Ok c) ∧
  (∀ i, i <= 0 → Api.get_class_by_id now i db = Api.HTTPException 400 "Invalid class ID") ∧
  (∀ i r, 0 < i → classes db !! i = Some r → start_time (date_time r) <= now →
          Api.get_class_by_id now i db = Api.HTTPException 404 "Class not found") ∧
  (∀ i, 0 < i → classes db !! i = None →
        Api.get_class_by_id now i db = Api.HTTPException 404 "Class not found").
Proof.
  assert (BookingService.get_class_by_id now (fc_id c) db = Some c ↔
          classes db !! fc_id c = Some (fc_row c) ∧ now < start_time (date_time (fc_row c)))
    as Hget.
  { unfold BookingService.get_class_by_id, Database.get_class_by_id.
    rewrite <- is_future_class_spec.
    destruct (classes db !! fc_id c) as [r|]; simpl; [|split; [done|by intros [? _]]].
    destruct (is_future_class now (date_time r)) eqn:Hfut; simpl.
    - split.
      + intros [= <-]. simpl. done.
      + intros [[= ->] _]. by destruct c.
    - split; [done|]. intros [[= ->] Hf]. congruence. }
  split_and!.
  - rewrite get_all_classes_elem, Hget. unfold upcoming. tauto.
  - intros Hin Hpos. apply get_all_classes_elem in Hin as (Hl & _ & Hfut).
    unfold Api.get_class_by_id. rewrite bool_decide_false by lia.
    by rewrite (proj2 Hget).
  - intros i Hi. unfold Api.get_class_by_id. by rewrite bool_decide_true.
  - intros i r Hi Hr Hpast. unfold Api.get_class_by_id.
    rewrite bool_decide_false by lia.
    unfold BookingService.get_class_by_id, Database.get_class_by_id. rewrite Hr. simpl.
    apply is_future_class_false in Hpast. by rewrite Hpast.
  - intros i Hi Hr. unfold Api.get_class_by_id.
    rewrite bool_decide_false by lia.
    unfold BookingService.get_class_by_id, Database.get_class_by_id. by rewrite Hr.
Qed.

(** ** Time zones *)




(** ** The validators of a request *)

Lemma map_string_length f s : String.length (map_string f s) = String.length s.
Proof. induction s as [|c s IH]; [done|]. simpl. by rewrite IH. Qed.

Lemma nullable_matches_without_at r : nullable r = true → matches_without_at r = true.
Proof.
  induction r as [| |p|r1 IH1 r2 IH2|r1 IH1 r2 IH2|r1 IH1]; simpl; try done.
  - intros [H1 H2]%andb_true_iff. by rewrite IH1, IH2.
  - intros [H1|H2]%orb_true_iff.
    + by rewrite IH1.
    + rewrite IH2 by done. by rewrite orb_true_r.
Qed.

Lemma deriv_matches_without_at c r :
  c ≠ "@"%char → matches_without_at (deriv c r) = true → matches_without_at r = true.
Proof.
  intros Hc.
  induction r as [| |p|r1 IH1 r2 IH2|r1 IH1 r2 IH2|r1 IH1];
    cbn [deriv matches_without_at]; try done.
  - destruct (p c) eqn:Hp; [|done]. intros _.
    apply existsb_exists. exists (nat_of_ascii c). split.
    + apply in_seq. pose proof (nat_ascii_bounded c). lia.
    + cbv zeta. rewrite ascii_nat_embedding, Hp. by rewrite bool_decide_false.
  - destruct (nullable r1) eqn:Hn; cbn [matches_without_at].
    + intros [[H1 H2]%andb_true_iff|H2]%orb_true_iff.
      * by rewrite IH1, H2.
      * rewrite (nullable_matches_without_at r1 Hn), IH2; done.
    + intros [H1 H2]%andb_true_iff. by rewrite IH1, H2.
  - intros [H1|H2]%orb_true_iff.
    + by rewrite IH1.
    + rewrite IH2 by done. by rewrite orb_true_r.
Qed.

Lemma fullmatch_without_at r s :
  fullmatch r s = true → "@"%char ∉ list_ascii_of_string s →
  matches_without_at r = true.
Proof.
  revert r. induction s as [|c s IH]; intros r Hm Hat; simpl in *.
  - by apply nullable_matches_without_at.
  - apply (deriv_matches_without_at c).
    + intros ->. apply Hat. left.
    + apply IH; [done|]. intros Hin. apply Hat. by right.
Qed.

(** An address the pattern accepts holds an ['@']. *)
Lemma re_match_email_has_at v :
  re_match_email v = true → "@"%char ∈ list_ascii_of_string v.
Proof.
  intros Hm. destruct (decide ("@"%char ∈ list_ascii_of_string v)) as [|Hno]; [done|].
  pose proof (fullmatch_without_at _ _ Hm Hno) as Hw.
  vm_compute in Hw. done.
Qed.

Lemma validate_client_email_Some e m :
  validate_client_email e = Some m → re_match_email e = true ∧ m = lower e.
Proof.
  unfold validate_client_email. destruct (re_match_email e); [|done].
  by intros [= <-].
Qed.

(** X15.  A validated address is in normal form.  The address
    [validate_client_email] returns is the input in lower case, of the same
    length; it passes the validator again unchanged; and it holds an ['@'],
    so the [/bookings] handler, which asks for no more than an ['@'], takes
    every address a booking can carry. *)
Theorem validated_email_is_in_normal_form (e m : string) (db : store) :
  validate_client_email e = Some m →
  m = lower e ∧
  lower m = m ∧
  String.length m = String.length e ∧
  validate_client_email m = Some m ∧
  "@"%char ∈ list_ascii_of_string m ∧
  Api.get_bookings m db = Api.Ok (BookingService.get_bookings_by_email m db).
Proof.
  intros Hv. pose proof Hv as [Hm ->]%validate_client_email_Some.
  assert (validate_client_email (lower e) = Some (lower e)) as Hagain.
  { rewrite validate_client_email_lower. done. }
  assert ("@"%char ∈ list_ascii_of_string (lower e)) as Hat.
  { apply re_match_email_has_at.
    by apply validate_client_email_Some in Hagain as [? _]. }
  split_and!; try done.
  - apply lower_lower.
  - apply map_string_length.
  - unfold Api.get_bookings. rewrite bool_decide_false; [done|].
    intros [Hempty|Hno]; [|done]. rewrite Hempty in Hat. by apply elem_of_nil in Hat.
Qed.

Lemma validated_email_is_in_normal_form_witness :
  "john.doe@example.com"%string = lower "John.Doe@Example.COM" ∧
  lower "john.doe@example.com" = "john.doe@example.com"%string ∧
  String.length "john.doe@example.com" = String.length "John.Doe@Example.COM" ∧
  validate_client_email "john.doe@example.com" = Some "john.doe@example.com"%string ∧
  "@"%char ∈ list_ascii_of_string "john.doe@example.com" ∧
  Api.get_bookings "john.doe@example.com" johns_store =
    Api.Ok (BookingService.get_bookings_by_email "john.doe@example.com" johns_store).
Proof.
  apply (validated_email_is_in_normal_form "John.Doe@Example.COM" "john.doe@example.com"
           johns_store).
  reflexivity.
Defined.

(** *** The name *)

Lemma lstrip_list_no_leading_space l : no_leading_space (lstrip_list l).
Proof.
  induction l as [|c l IH]; [done|]. simpl.
  destruct (is_space c) eqn:Hc; [done|]. simpl. done.
Qed.

Lemma lstrip_list_id l : no_leading_space l → lstrip_list l = l.
Proof. destruct l as [|c l]; [done|]. simpl. by intros ->. Qed.

Lemma lstrip_list_suffix l : ∃ pre, l = pre ++ lstrip_list l.
Proof.
  induction l as [|c l [pre IH]]; [by exists []|]. simpl.
  destruct (is_space c); [|by exists []].
  exists (c :: pre). simpl. by rewrite <- IH.
Qed.

Lemma strip_list_no_leading_space l : no_leading_space (strip_list l).
Proof.
  unfold strip_list.
  pose proof (lstrip_list_no_leading_space l) as Ha.
  destruct (lstrip_list_suffix (reverse (lstrip_list l))) as [pre Hpre].
  set (b := lstrip_list (reverse (lstrip_list l))) in *.
  assert (lstrip_list l = reverse b ++ reverse pre) as Heq.
  { rewrite <- reverse_app, <- Hpre, reverse_involutive. done. }
  destruct (reverse b) as [|c t]; [done|].
  rewrite Heq in Ha. done.
Qed.

Lemma strip_list_no_trailing_space l : no_leading_space (reverse (strip_list l)).
Proof.
  unfold strip_list. rewrite reverse_involutive. apply lstrip_list_no_leading_space.
Qed.

Lemma strip_list_id l :
  no_leading_space l → no_leading_space (reverse l) → strip_list l = l.
Proof.
  intros H1 H2. unfold strip_list.
  by rewrite (lstrip_list_id l H1), (lstrip_list_id _ H2), reverse_involutive.
Qed.

Lemma strip_strip s : strip (strip s) = strip s.
Proof.
  unfold strip. rewrite list_ascii_of_string_of_list_ascii.
  rewrite strip_list_id; [done| |].
  - apply strip_list_no_leading_space.
  - apply strip_list_no_trailing_space.
Qed.

(** X16.  A validated name is trimmed.  When [validate_client_name]
    accepts, it returns the input without the white space around it, of at
    least two characters; the result begins with no white space, is left
    as it is by a further [strip], and passes the validator again unchanged.
    When it refuses, the trimmed input has fewer than two characters, and
    the message is "Client name cannot be empty" exactly when nothing but
    white space was given. *)
Theorem validated_name_is_trimmed (v : string) :
  match validate_client_name v with
  | inr n =>
      n = strip v ∧ (2 ≤ String.length n)%nat ∧
      strip n = n ∧ validate_client_name n = inr n ∧
      no_leading_space (list_ascii_of_string n) ∧
      no_leading_space (reverse (list_ascii_of_string n))
  | inl msg =>
      (String.length (strip v) < 2)%nat ∧
      (msg = "Client name cannot be empty"%string ↔ strip v = EmptyString)
  end.
Proof.
  unfold validate_client_name.
  case_bool_decide as Hempty.
  - rewrite Hempty. simpl. split; [lia|done].
  - case_bool_decide as Hshort.
    + split; [done|]. split; [done|]. intros ?. done.
    + rewrite strip_strip.
      rewrite (bool_decide_false (strip v = EmptyString)) by done.
      rewrite (bool_decide_false (String.length (strip v) < 2)%nat) by done.
      split_and!; [done|lia|done|done| |].
      * unfold strip. rewrite list_ascii_of_string_of_list_ascii.
        apply strip_list_no_leading_space.
      * unfold strip. rewrite list_ascii_of_string_of_list_ascii.
        apply strip_list_no_trailing_space.
Qed.

(** The name of the tests is trimmed; a single letter is refused. *)
Example validate_client_name_examples :
  validate_client_name "  John Doe  " = inr "John Doe"%string ∧
  validate_client_name "" = inl "Client name cannot be empty"%string ∧
  validate_client_name " J " = inl "Client name must be at least 2 characters long"%string.
Proof. split_and!; reflexivity. Qed.

Lemma validate_client_name_inr v n :
  validate_client_name v = inr n →
  n = strip v ∧ (2 ≤ String.length n)%nat ∧ validate_client_name n = inr n.
Proof.
  unfold validate_client_name.
  case_bool_decide as Hempty; [done|].
  case_bool_decide as Hshort; [done|]. intros [= <-].
  rewrite strip_strip.
  rewrite (bool_decide_false (strip v = EmptyString)) by done.
  rewrite (bool_decide_false (String.length (strip v) < 2)%nat) by done.
  split_and!; [done|lia|done].
Qed.

(** *** The request *)

(** X17.  A request that was built is in normal form.  When the three
    validators accept, the request has a positive class id, a trimmed name
    of at least two characters and a lower-case address; building a request
    from the fields of a built request gives the same request back. *)
Theorem built_request_is_in_normal_form
    (class_id0 : Z) (client_name0 client_email0 : string) (rq : BookingRequest) :
  BookingRequest_new class_id0 client_name0 client_email0 = Some rq →
  0 < req_class_id rq ∧ req_class_id rq = class_id0 ∧
  req_client_name rq = strip client_name0 ∧ (2 ≤ String.length (req_client_name rq))%nat ∧
  req_client_email rq = lower client_email0 ∧
  BookingRequest_new (req_class_id rq) (req_client_name rq) (req_client_email rq) = Some rq.
Proof.
  unfold BookingRequest_new at 1.
  destruct (validate_class_id class_id0) as [cid|] eqn:Hc; [|done].
  destruct (validate_client_name client_name0) as [msg|n] eqn:Hn; [done|].
  destruct (validate_client_email client_email0) as [e|] eqn:He; [|done].
  intros [= <-]. simpl.
  assert (cid = class_id0 ∧ 0 < cid) as [-> Hpos].
  { unfold validate_class_id in Hc. case_bool_decide; [done|].
    injection Hc as <-. lia. }
  apply validate_client_name_inr in Hn as (-> & Hlen & Hagain).
  pose proof He as [_ ->]%validate_client_email_Some.
  split_and!; try done.
  unfold BookingRequest_new. rewrite Hagain, validate_client_email_lower, He.
  unfold validate_class_id. by rewrite bool_decide_false by lia.
Qed.

Lemma built_request_is_in_normal_form_witness :
  0 < 1 ∧ 1 = 1 ∧
  "John Doe"%string = strip "  John Doe " ∧ (2 ≤ String.length "John Doe")%nat ∧
  "john@example.com"%string = lower "JOHN@EXAMPLE.COM" ∧
  BookingRequest_new 1 "John Doe" "john@example.com" = Some john.
Proof.
  apply (built_request_is_in_normal_form 1 "  John Doe " "JOHN@EXAMPLE.COM" john).
  reflexivity.
Defined.

(** ** Booking, then asking for the history *)

(** X18.  A booking shows up in the history of its address.  When the
    [/book] handler answers a response for a request that was built by the
    validators, the [/bookings] handler, asked for the address of the
    request in the store the booking leaves, accepts the address and its
    list holds the booking: the id, class name and date of the response,
    under the client's name and address. *)
Theorem booking_shows_up_in_the_history
    (class_id0 : Z) (client_name0 client_email0 : string) (rq : BookingRequest)
    (now later : Z) (o : Database.opening) (faults : Database.stmt → bool)
    (db db' : store) (resp : BookingResponse) :
  BookingRequest_new class_id0 client_name0 client_email0 = Some rq →
  book_class now later o faults rq db = (inr resp, db') →
  ∃ history,
    Api.get_bookings (req_client_email rq) db' = Api.Ok history ∧
    {| bh_id := resp_booking_id resp; class_name := resp_class_name resp;
       bh_client_name := req_client_name rq; bh_client_email := req_client_email rq;
       bh_booking_date := resp_booking_date resp |} ∈ history.
Proof.
  intros Hnew Hbook.
  assert ("@"%char ∈ list_ascii_of_string (req_client_email rq)) as Hat.
  { revert Hnew. unfold BookingRequest_new.
    destruct (validate_class_id class_id0); [|done].
    destruct (validate_client_name client_name0); [done|].
    destruct (validate_client_email client_email0) as [e|] eqn:He; [|done].
    intros [= <-]. simpl.
    pose proof He as [_ ->]%validate_client_email_Some.
    rewrite <- validate_client_email_lower in He.
    apply re_match_email_has_at. by apply validate_client_email_Some in He as [? _]. }
  assert (∃ r, classes db !! req_class_id rq = Some r ∧
               resp = response_for rq r (Database.next_rowid db) ∧
               db' = booked (req_class_id rq) (req_client_name rq)
                            (req_client_email rq) r db) as (r & Hr & -> & ->).
  { revert Hbook. unfold book_class.
    destruct (BookingService.validate_booking_request now rq db) as [[] reason]; [|done].
    destruct (BookingService.create_booking_call later o faults rq db)
      as [[resp0|] db0] eqn:Hc; [|done].
    intros [= <- <-].
    apply service_create_booking_call_response in Hc
      as (_ & r & Hr & _ & _ & _ & _ & -> & ->).
    by exists r. }
  eexists. split.
  - unfold Api.get_bookings. rewrite bool_decide_false; [done|].
    intros [Hempty|Hno]; [|done]. rewrite Hempty in Hat. by apply elem_of_nil in Hat.
  - apply get_bookings_by_email_elem.
    exists {| booking_id := Database.next_rowid db; class_id := req_class_id rq;
              client_name := req_client_name rq; client_email := req_client_email rq;
              booking_date := date_time r |}, (Database.take_slot r).
    split_and!; [|done| |done].
    + unfold booked. simpl. apply elem_of_app. right. left.
    + cbn [class_id].
      rewrite (booked_class (req_class_id rq) (req_client_name rq) (req_client_email rq)
                 r db _ _ Hr Hr).
      by rewrite (bool_decide_true (req_class_id rq = req_class_id rq)).
Qed.

Lemma booking_shows_up_in_the_history_witness :
  ∃ history,
    Api.get_bookings "john@example.com"
      (book_class 0 1000000 Database.Opened no_faults john (seed_data 0)).2 =
      Api.Ok history ∧
    {| bh_id := 1; class_name := "Yoga";
       bh_client_name := "John Doe"; bh_client_email := "john@example.com";
       bh_booking_date := date_time (sample_class 0 "Yoga" 1 10 "Sarah Johnson" 20) |}
      ∈ history.
Proof.
  apply (booking_shows_up_in_the_history 1 "  John Doe " "JOHN@EXAMPLE.COM" john
           0 1000000 Database.Opened no_faults (seed_data 0)
           (book_class 0 1000000 Database.Opened no_faults john (seed_data 0)).2
           (response_for john (sample_class 0 "Yoga" 1 10 "Sarah Johnson" 20) 1)).
  - reflexivity.
  - reflexivity.
Defined.

(** The handler asks for an ['@'] and nothing more, and compares the
    address as it is given: asked in upper case, it finds nothing. *)
Example get_bookings_examples :
  Api.get_bookings "invalid-email" johns_store =
    Api.HTTPException 400 "Valid email address is required" ∧
  Api.get_bookings "" johns_store =
    Api.HTTPException 400 "Valid email address is required" ∧
  Api.get_bookings "JOHN@EXAMPLE.COM" johns_store = Api.Ok [] ∧
  (bh_id <$> match Api.get_bookings "john@example.com" johns_store with
             | Api.Ok l => l | _ => [] end) = [1].
Proof. split_and!; reflexivity. Qed.

(** ** The statistics within the slots *)

Lemma column_sum_le (f g : class_row → Z) rows :
  (∀ kv, kv ∈ rows → f kv.2 <= g kv.2) → column_sum f rows <= column_sum g rows.
Proof.
  unfold column_sum. induction rows as [|kv rows IH]; intros Hall; [done|].
  rewrite !fmap_cons. cbn [foldr].
  assert (f kv.2 <= g kv.2) by (apply Hall; left).
  assert (foldr Z.add 0 ((λ kv, f kv.2) <$> rows) <=
          foldr Z.add 0 ((λ kv, g kv.2) <$> rows)); [|lia].
  apply IH. intros kv' Hin. apply Hall. by right.
Qed.

Lemma column_sum_zero rows : column_sum (λ _, 0) rows = 0.
Proof.
  unfold column_sum. induction rows as [|kv rows IH]; [done|].
  rewrite fmap_cons. cbn [foldr]. lia.
Qed.

Lemma run_keeps_slot_bounds db ops :
  (∀ i r, classes db !! i = Some r → 0 <= available_slots r <= total_slots r) →
  ∀ i r, classes (run ops db) !! i = Some r → 0 <= available_slots r <= total_slots r.
Proof.
  intros Hinv i r' Hr'.
  assert (is_Some (classes db !! i)) as [r Hr].
  { apply elem_of_dom. rewrite <- (run_dom ops db). apply elem_of_dom. by exists r'. }
  destruct (run_slots ops db i r Hr (Hinv i r Hr)) as (r'' & Hr'' & Ht & Ha).
  assert (r'' = r') as -> by congruence. pose proof (Hinv i r Hr). lia.
Qed.

(** X19.  The statistics stay within the slots.  From a store in which
    every class has [0 <= available_slots <= total_slots], after any
    history of calls and at any clock reading, the statistics report
    [0 <= available_slots <= total_slots] and
    [0 <= booked_slots <= total_slots], the two adding up to [total_slots],
    and a count of classes that is not negative. *)
Theorem statistics_stay_within_the_slots (now : Z) (db : store) (ops : list op) :
  (∀ i r, classes db !! i = Some r → 0 <= available_slots r <= total_slots r) →
  let stats := BookingService.get_booking_statistics now (run ops db) in
  0 <= total_classes stats ∧
  0 <= stat_available_slots stats <= stat_total_slots stats ∧
  0 <= booked_slots stats <= stat_total_slots stats ∧
  booked_slots stats + stat_available_slots stats = stat_total_slots stats.
Proof.
  intros Hinv stats.
  pose proof (run_keeps_slot_bounds db ops Hinv) as Hinv'.
  set (rows := upcoming_rows now (run ops db)).
  assert (stat_total_slots stats = column_sum total_slots rows) as Htot
    by apply (listed_column_sum now (run ops db) total_slots).
  assert (stat_available_slots stats = column_sum available_slots rows) as Hav
    by apply (listed_column_sum now (run ops db) available_slots).
  assert (booked_slots stats = stat_total_slots stats - stat_available_slots stats)
    as Hbooked by done.
  assert (∀ kv, kv ∈ rows → 0 <= available_slots kv.2 <= total_slots kv.2) as Hrows.
  { intros [i r] Hin. apply upcoming_rows_elem in Hin as [Hl _]. by apply (Hinv' i). }
  assert (0 <= column_sum available_slots rows).
  { rewrite <- (column_sum_zero rows). apply column_sum_le.
    intros kv Hin. apply Hrows in Hin. lia. }
  assert (column_sum available_slots rows <= column_sum total_slots rows).
  { apply column_sum_le. intros kv Hin. apply Hrows in Hin. lia. }
  split_and!; try lia.
  unfold stats, BookingService.get_booking_statistics. simpl. lia.
Qed.

Lemma statistics_stay_within_the_slots_witness :
  let stats := BookingService.get_booking_statistics 0
                 (run (users_book 0 1 5 ++ users_book 0 2 15) (two_classes 0)) in
  0 <= total_classes stats ∧
  0 <= stat_available_slots stats <= stat_total_slots stats ∧
  0 <= booked_slots stats <= stat_total_slots stats ∧
  booked_slots stats + stat_available_slots stats = stat_total_slots stats.
Proof.
  apply (statistics_stay_within_the_slots 0 (two_classes 0)
           (users_book 0 1 5 ++ users_book 0 2 15)).
  intros i r Hr. apply elem_of_map_to_list in Hr.
  change (map_to_list (classes (two_classes 0))) with
    [(2, sample_class 0 "Zumba" 1 18 "Mike Rodriguez" 15);
     (1, sample_class 0 "Yoga" 1 10 "Sarah Johnson" 20)] in Hr.
  apply elem_of_cons in Hr as [[= -> ->]|Hr]; [simpl; lia|].
  apply elem_of_cons in Hr as [[= -> ->]|Hr]; [simpl; lia|].
  by apply elem_of_nil in Hr.
Defined.
